(** * The job scheduler of [src/scheduler/scheduler.py]

    A shallow embedding of the scheduling engine: the recurrence resolver
    [compute_next_run_at] with the parsers it calls, the store gateway
    ([fetch_due_jobs], [fetch_job_by_id], [update_job_after_success],
    [update_job_after_failure]), the common dispatch procedure
    [_execute_one], one cycle of [run_loop], the control handler
    [do_GET] and [load_config].

    Conventions of the embedding.
    - Text is ASCII: a Python [str] is a [string].
    - A naive [datetime] is the number of microseconds since midnight
      of proleptic ordinal day 0, so that [date()] is a floor division,
      adding a [timedelta] is an addition and comparison is [<]; the
      range limits of [datetime] (years 1..9999) are not modelled.
    - The store keeps a datetime as it is given, whatever the precision
      of the column.
    - A raised exception is the [Raise] case of [result].
    - What the function reads from its surroundings (wall clocks, the
      zone database, the table, the queue) is passed explicitly. *)

From Stdlib Require Import ZArith Ascii String List Bool Lia Sorted Permutation.
From stdpp Require Import base decidable option list gmap.
Import ListNotations.

Local Open Scope string_scope.
Local Open Scope Z_scope.

(** ** Python exceptions *)

Inductive exn : Type :=
  | ValueError
  | TypeError
  | AttributeError
  | JSONDecodeError.

Inductive result (A : Type) : Type :=
  | Ok (a : A)
  | Raise (e : exn).
Arguments Ok {A} a.
Arguments Raise {A} e.

(** Sequencing: an exception of [m] propagates. *)
Definition rbind {A B : Type} (m : result A) (k : A -> result B) : result B :=
  match m with
  | Ok a => k a
  | Raise e => Raise e
  end.

Notation "'let*' x ':=' m 'in' k" := (rbind m (fun x => k))
  (at level 10, x name, m at level 100, k at level 200).

(** ** Python string primitives (ASCII) *)

Module PyStr.

Definition code (c : ascii) : Z := Z.of_N (N_of_ascii c).

(** The ASCII characters [str.isspace] accepts. *)
Definition is_space (c : ascii) : bool :=
  let n := code c in
  ((9 <=? n) && (n <=? 13)) || ((28 <=? n) && (n <=? 32)).

Definition truthy (s : string) : bool :=
  match s with
  | EmptyString => false
  | String _ _ => true
  end.

Fixpoint lstrip (s : string) : string :=
  match s with
  | EmptyString => EmptyString
  | String c s' => if is_space c then lstrip s' else s
  end.

Fixpoint rstrip (s : string) : string :=
  match s with
  | EmptyString => EmptyString
  | String c s' =>
      let r := rstrip s' in
      if is_space c && negb (truthy r) then EmptyString else String c r
  end.

(** [s.strip()] *)
Definition strip (s : string) : string := rstrip (lstrip s).

(** [s.split(sep)] for a one-character separator. *)
Fixpoint split (sep : ascii) (s : string) : list string :=
  match s with
  | EmptyString => [EmptyString]
  | String c s' =>
      if Ascii.eqb c sep then EmptyString :: split sep s'
      else match split sep s' with
           | h :: t => String c h :: t
           | [] => [String c EmptyString]
           end
  end.

(** [s.replace(a, b)] for one-character [a] and [b]. *)
Fixpoint replace (a b : ascii) (s : string) : string :=
  match s with
  | EmptyString => EmptyString
  | String c s' => String (if Ascii.eqb c a then b else c) (replace a b s')
  end.

Definition upper_char (c : ascii) : ascii :=
  let n := code c in
  if (97 <=? n) && (n <=? 122) then ascii_of_N (Z.to_N (n - 32)) else c.

(** [s.upper()] *)
Fixpoint upper (s : string) : string :=
  match s with
  | EmptyString => EmptyString
  | String c s' => String (upper_char c) (upper s')
  end.

(** [len(s)] *)
Definition len (s : string) : Z := Z.of_nat (String.length s).

Definition digit_of (c : ascii) : option Z :=
  let n := code c in
  if (48 <=? n) && (n <=? 57) then Some (n - 48) else None.

(** The digits of a decimal literal: single underscores are allowed
    between two digits. [seen] says that the previous character was a
    digit. *)
Fixpoint int_digits (acc : Z) (seen : bool) (s : string) : option Z :=
  match s with
  | EmptyString => if seen then Some acc else None
  | String c s' =>
      match digit_of c with
      | Some d => int_digits (10 * acc + d) true s'
      | None =>
          if Ascii.eqb c "_" && seen then int_digits acc false s' else None
      end
  end.

(** [int(s)] in base 10: surrounding white space, an optional sign,
    then the digits; [None] stands for [ValueError]. *)
Definition int (s : string) : option Z :=
  match strip s with
  | String "+" r => int_digits 0 false r
  | String "-" r => Z.opp <$> int_digits 0 false r
  | t => int_digits 0 false t
  end.

(** [a or b] on strings. *)
Definition or_ (a b : string) : string := if truthy a then a else b.

(** [x or b] where [x] is a string or [None]. *)
Definition opt_or (x : option string) (b : string) : string :=
  match x with
  | Some a => or_ a b
  | None => b
  end.

End PyStr.

(** ** Times of day *)

(** [datetime.time] *)
Record dtime : Type := Dtime {
  hour : Z;
  minute : Z;
  second : Z;
  microsecond : Z
}.

(** The constructor call [dtime(hh, mm, ss)], which raises [ValueError]
    outside the ranges of a time of day. *)
Definition mk_dtime (hh mm ss : Z) : result dtime :=
  if (0 <=? hh) && (hh <? 24) && (0 <=? mm) && (mm <? 60) && (0 <=? ss) && (ss <? 60)
  then Ok (Dtime hh mm ss 0)
  else Raise ValueError.

(** What a [time_of_day] cell (or one part of the [times_of_day] text)
    can hold: [None], a [datetime.time], or any other object, kept as
    its [str()]. *)
Inductive tod_value : Type :=
  | TodNone
  | TodTime (t : dtime)
  | TodOther (repr : string).

Definition py_int (s : string) : result Z :=
  match PyStr.int s with
  | Some z => Ok z
  | None => Raise ValueError
  end.

(** [_parse_time_of_day] on an object that is not a [datetime.time]:
    lines 198-202. *)
Definition _parse_time_of_day_str (x : string) : result dtime :=
  let s := PyStr.strip x in
  if negb (PyStr.truthy s) then Ok (Dtime 0 0 0 0)
  else
    let s := if PyStr.len s =? 5 then String.append s ":00" else s in
    match PyStr.split ":" s with
    | [hh; mm; ss] =>
        let* h := py_int hh in
        let* m := py_int mm in
        let* s := py_int ss in
        mk_dtime h m s
    | _ => Raise ValueError
    end.

Definition _parse_time_of_day (x : tod_value) : result dtime :=
  match x with
  | TodTime t => Ok t
  | TodOther s => _parse_time_of_day_str s
  | TodNone => _parse_time_of_day_str "None"
  end.

(** ** Dates, datetimes and zones *)

Module Datetime.

Definition us_per_sec : Z := 1000000.
Definition us_per_day : Z := 86400 * us_per_sec.

(** [dt.date()], as a proleptic ordinal ([date.toordinal()]). *)
Definition date (dt : Z) : Z := dt / us_per_day.

(** [datetime(d.year, d.month, d.day, tt.hour, tt.minute, tt.second)] *)
Definition combine (d : Z) (tt : dtime) : Z :=
  d * us_per_day + (hour tt * 3600 + minute tt * 60 + second tt) * us_per_sec.

(** [datetime(d.year, d.month, d.day).weekday()]: ordinal 1 is a
    Monday, and Monday is 0. *)
Definition weekday (d : Z) : Z := (d + 6) mod 7.

(** [dt + timedelta(seconds=n)] *)
Definition add_seconds (dt n : Z) : Z := dt + n * us_per_sec.

Definition is_leap (y : Z) : bool :=
  (y mod 4 =? 0) && (negb (y mod 100 =? 0) || (y mod 400 =? 0)).

Definition days_before_month (y m : Z) : Z :=
  nth (Z.to_nat m) [0; 0; 31; 59; 90; 120; 151; 181; 212; 243; 273; 304; 334] 0
  + (if (2 <? m) && is_leap y then 1 else 0).

(** [date(y, m, d).toordinal()], used to write dates in examples. *)
Definition ordinal (y m d : Z) : Z :=
  let p := y - 1 in
  p * 365 + p / 4 - p / 100 + p / 400 + days_before_month y m + d.

(** [datetime(y, m, d, hh, mm, ss)] *)
Definition at_ (y m d hh mm ss : Z) : Z :=
  combine (ordinal y m d) (Dtime hh mm ss 0).

(** A [ZoneInfo] object. [wall_offset w] is [utcoffset()] of the aware
    datetime with wall clock [w] (fold 0); [utc_offset u] is the
    offset in force at the instant [u]. Both in microseconds. *)
Record zone : Type := Zone {
  wall_offset : Z -> Z;
  utc_offset : Z -> Z
}.

(** [datetime.now(tz)]: the wall clock of [tz] at the instant [utc]. *)
Definition now_in (tz : zone) (utc : Z) : Z := utc + utc_offset tz utc.

(** [dt.astimezone(tz).replace(tzinfo=None)] for [dt] aware in [from]:
    nothing happens when [tz] is the very object [dt] carries. *)
Definition astimezone (same : bool) (from tz : zone) (dt : Z) : Z :=
  if same then dt
  else let utc := dt - wall_offset from dt in utc + utc_offset tz utc.

Definition fixed (off_sec : Z) : zone :=
  Zone (fun _ => off_sec * us_per_sec) (fun _ => off_sec * us_per_sec).

End Datetime.

(** ** Job rows *)

(** What [run_at] can hold: [None], a naive [datetime], or another
    object kept as its [str()]. *)
Inductive run_value : Type :=
  | RunNone
  | RunDatetime (dt : Z)
  | RunOther (repr : string).

(** What [days_of_week] can hold: [None], a set, list or tuple of
    tokens (each kept as its [str()]), or another object kept as its
    [str()]. *)
Inductive days_value : Type :=
  | DaysNone
  | DaysColl (tokens : list string)
  | DaysOther (repr : string).

Module Job.

(** The columns only the sender reads. *)
Record delivery : Type := Delivery {
  channel : option string;
  http_url : option string;
  http_method : option string;
  http_headers_json : option string;
  content_type : option string;
  payload : option string;
  mqtt_topic : option string;
  qos : option Z;
  retained : option bool;
  timeout_sec : option Z
}.

(** One row of [schedule_jobs], as [SELECT *] returns it. *)
Record row : Type := Row {
  id : Z;
  name : option string;
  enabled : bool;
  schedule_type : option string;
  run_at : run_value;
  times_of_day : option string;
  time_of_day : tod_value;
  days_of_week : days_value;
  timezone : option string;
  message : delivery;
  max_retries : option Z;
  retry_backoff_sec : option Z;
  next_run_at : option Z;
  last_run_at : option Z
}.

End Job.

Abbreviation row := Job.row.

(** ** Parsing the schedule fields *)

Definition time_key (t : dtime) : Z * Z * Z := (hour t, minute t, second t).

Definition key_eqb (a b : Z * Z * Z) : bool :=
  let '(h1, m1, s1) := a in
  let '(h2, m2, s2) := b in
  (h1 =? h2) && (m1 =? m2) && (s1 =? s2).

(** Tuple comparison [a <= b]. *)
Definition key_leb (a b : Z * Z * Z) : bool :=
  let '(h1, m1, s1) := a in
  let '(h2, m2, s2) := b in
  (h1 <? h2) || ((h1 =? h2) && ((m1 <? m2) || ((m1 =? m2) && (s1 <=? s2)))).

(** [d[k] = v] on an insertion-ordered dict. *)
Fixpoint dict_set (k : Z * Z * Z) (v : dtime) (d : list (Z * Z * Z * dtime))
  : list (Z * Z * Z * dtime) :=
  match d with
  | [] => [(k, v)]
  | (k', v') :: d' =>
      if key_eqb k k' then (k, v) :: d' else (k', v') :: dict_set k v d'
  end.

(** Stable insertion for [times.sort(key=...)]. *)
Fixpoint sort_insert (t : dtime) (l : list dtime) : list dtime :=
  match l with
  | [] => [t]
  | u :: l' =>
      if key_leb (time_key u) (time_key t) then u :: sort_insert t l'
      else t :: u :: l'
  end.

Definition sort_times (l : list dtime) : list dtime :=
  fold_left (fun acc t => sort_insert t acc) l [].

(** The loop of lines 208-210 over the parts of the csv. *)
Fixpoint parse_parts (parts : list string) : result (list dtime) :=
  match parts with
  | [] => Ok []
  | p :: ps =>
      let part := PyStr.strip p in
      if PyStr.truthy part then
        let* t := _parse_time_of_day_str part in
        let* ts := parse_parts ps in
        Ok (t :: ts)
      else parse_parts ps
  end.

(** [tod is not None and str(tod).strip()] *)
Definition tod_present (x : tod_value) : bool :=
  match x with
  | TodNone => false
  | TodTime _ => true
  | TodOther s => PyStr.truthy (PyStr.strip s)
  end.

Definition _parse_times (job : row) : result (list dtime) :=
  let* out :=
    match Job.times_of_day job with
    | Some csv =>
        if PyStr.truthy (PyStr.strip csv)
        then parse_parts (PyStr.split "," csv)
        else Ok []
    | None => Ok []
    end in
  let* out :=
    match out with
    | [] =>
        let tod := Job.time_of_day job in
        if tod_present tod then let* t := _parse_time_of_day tod in Ok [t]
        else Ok []
    | _ => Ok out
    end in
  let uniq := fold_left (fun d t => dict_set (time_key t) t d) out [] in
  Ok (sort_times (map snd uniq)).

Definition DOW_MAP : list (string * Z) :=
  [("Mon", 0); ("Tue", 1); ("Wed", 2); ("Thu", 3); ("Fri", 4); ("Sat", 5); ("Sun", 6)].

Definition norm : list (string * string) :=
  [("MON", "Mon"); ("MONDAY", "Mon");
   ("TUE", "Tue"); ("TUESDAY", "Tue");
   ("WED", "Wed"); ("WEDNESDAY", "Wed");
   ("THU", "Thu"); ("THURSDAY", "Thu");
   ("FRI", "Fri"); ("FRIDAY", "Fri");
   ("SAT", "Sat"); ("SATURDAY", "Sat");
   ("SUN", "Sun"); ("SUNDAY", "Sun")].

(** [d.get(k)] on a dict with string keys. *)
Fixpoint dict_get {A : Type} (d : list (string * A)) (k : string) : option A :=
  match d with
  | [] => None
  | (k', v) :: d' => if String.eqb k k' then Some v else dict_get d' k
  end.

(** Insertion into a sorted list without repetition, for [sorted({...})]. *)
Fixpoint set_insert (x : Z) (l : list Z) : list Z :=
  match l with
  | [] => [x]
  | y :: l' =>
      if x <? y then x :: y :: l'
      else if x =? y then l
      else y :: set_insert x l'
  end.

Definition sorted_set (l : list Z) : list Z :=
  fold_left (fun acc x => set_insert x acc) l [].

Definition _parse_days (raw : days_value) : list Z :=
  let strip_keep := fun l =>
    omap (fun t => let t' := PyStr.strip t in
                   if PyStr.truthy t' then Some t' else None) l in
  let tokens :=
    match raw with
    | DaysNone => []
    | DaysColl l => strip_keep l
    | DaysOther s => if PyStr.truthy s then strip_keep (PyStr.split "," s) else []
    end in
  let tokens := map (fun t => default t (dict_get norm (PyStr.upper t))) tokens in
  sorted_set (omap (dict_get DOW_MAP) tokens).

(** ** The recurrence resolver *)

(** What the engine reads from the machine it runs on. [now] arguments
    below are instants: microseconds on the UTC time line. *)
Record Host : Type := {
  (** [ZoneInfo(name)], [None] when it raises; the module missing
      altogether ([ZoneInfo = None], line 30) is the constant [None]. *)
  ZoneInfo : string -> option Datetime.zone;
  (** [datetime.fromisoformat(s)]: the wall clock read and whether the
      text carried an offset (an aware result); [None] when it raises. *)
  fromisoformat : string -> option (Z * bool);
  (** [datetime.now()]: the wall clock of the machine's own zone. *)
  local_now : Z -> Z;
  (** [NOW()] of the store session. *)
  mysql_now : Z -> Z
}.

Definition _get_zoneinfo (h : Host) (name : string) : option Datetime.zone :=
  ZoneInfo h name.

(** [str(job.get("schedule_type") or "").strip().upper()] *)
Definition stype_of (job : row) : string :=
  PyStr.upper (PyStr.strip (PyStr.opt_or (Job.schedule_type job) "")).

(** Line 252. *)
Definition job_tz_name (job : row) (default_tz : string) : string :=
  PyStr.or_ (PyStr.strip (PyStr.opt_or (Job.timezone job) default_tz)) default_tz.

(** Line 256: the wall clock the candidates are compared with. *)
Definition now_of (h : Host) (job_tz : option Datetime.zone) (utc : Z) : Z :=
  match job_tz with
  | Some z => Datetime.now_in z utc
  | None => local_now h utc
  end.

(** What the three branches return for a chosen wall clock [cand] of the
    job (lines 269, 280-281, 298-299): converted to the session zone
    when both zones exist, otherwise the wall clock as it is. *)
Definition to_session (same : bool) (job_tz sess_tz : option Datetime.zone) (cand : Z) : Z :=
  match job_tz, sess_tz with
  | Some zj, Some zs => Datetime.astimezone same zj zs cand
  | _, _ => cand
  end.

(** The inner loop of DAILY (lines 277-281) on day [d]. *)
Fixpoint daily_times (now d : Z) (times : list dtime) : option Z :=
  match times with
  | [] => None
  | tm :: rest =>
      let cand := Datetime.combine d tm in
      if now <? cand then Some cand else daily_times now d rest
  end.

(** The outer loop of DAILY (lines 275-282). *)
Fixpoint daily_scan (now : Z) (times : list dtime) (offsets : list Z) : option Z :=
  match offsets with
  | [] => None
  | day_offset :: rest =>
      match daily_times now (Datetime.date now + day_offset) times with
      | Some cand => Some cand
      | None => daily_scan now times rest
      end
  end.

(** The inner loop of WEEKLY (lines 292-295) on day [d]. *)
Definition weekly_times (now d : Z) (times : list dtime) (best : option Z) : option Z :=
  fold_left
    (fun best tm =>
       let cand := Datetime.combine d tm in
       if cand <=? now then best
       else match best with
            | None => Some cand
            | Some b => if cand <? b then Some cand else Some b
            end)
    times best.

(** The outer loop of WEEKLY (lines 288-296). *)
Fixpoint weekly_scan (now : Z) (dows : list Z) (times : list dtime)
    (offsets : list Z) (best : option Z) : option Z :=
  match offsets with
  | [] => best
  | i :: rest =>
      let d := Datetime.date now + i in
      let w := Datetime.weekday d in
      if negb (bool_decide (w ∈ dows)) then weekly_scan now dows times rest best
      else
        let best := weekly_times now d times best in
        match best with
        | Some _ => best
        | None => weekly_scan now dows times rest best
        end
  end.

(** [compute_next_run_at(job, default_tz)] evaluated at the instant
    [utc] on host [h]. *)
Definition compute_next_run_at (h : Host) (utc : Z) (job : row) (default_tz : string)
  : result (option Z) :=
  let stype := stype_of job in
  let tz_name := job_tz_name job default_tz in
  let job_tz := _get_zoneinfo h tz_name in
  let sess_tz := _get_zoneinfo h default_tz in
  let same := String.eqb tz_name default_tz in
  let now := now_of h job_tz utc in
  let* times := _parse_times job in
  if String.eqb stype "ONCE" then
    let parsed :=
      match Job.run_at job with
      | RunNone => None
      | RunDatetime dt => Some (dt, false)
      | RunOther s =>
          if PyStr.truthy s then fromisoformat h (PyStr.replace " " "T" s) else None
      end in
    match parsed with
    | None => Ok None
    | Some (run, aware) =>
        match job_tz with
        | Some _ =>
            if run <=? now then Ok None
            else Ok (Some (to_session same job_tz sess_tz run))
        | None =>
            if aware then Raise TypeError
            else Ok (if now <? run then Some run else None)
        end
    end
  else
    match times with
    | [] => Ok None
    | _ =>
        if String.eqb stype "DAILY" then
          Ok (to_session same job_tz sess_tz <$> daily_scan now times (seqZ 0 14))
        else if String.eqb stype "WEEKLY" then
          match _parse_days (Job.days_of_week job) with
          | [] => Ok None
          | dows =>
              Ok (to_session same job_tz sess_tz
                    <$> weekly_scan now dows times (seqZ 0 366) None)
          end
        else Ok None
    end.

(** ** The store gateway *)

Module Store.

(** The table [schedule_jobs], in storage order. *)
Definition table : Type := list row.

Definition set_enabled (b : bool) (r : row) : row :=
  Job.Row (Job.id r) (Job.name r) b (Job.schedule_type r) (Job.run_at r)
    (Job.times_of_day r) (Job.time_of_day r) (Job.days_of_week r) (Job.timezone r)
    (Job.message r) (Job.max_retries r) (Job.retry_backoff_sec r)
    (Job.next_run_at r) (Job.last_run_at r).

Definition set_next_run_at (t : option Z) (r : row) : row :=
  Job.Row (Job.id r) (Job.name r) (Job.enabled r) (Job.schedule_type r) (Job.run_at r)
    (Job.times_of_day r) (Job.time_of_day r) (Job.days_of_week r) (Job.timezone r)
    (Job.message r) (Job.max_retries r) (Job.retry_backoff_sec r)
    t (Job.last_run_at r).

Definition set_last_run_at (t : option Z) (r : row) : row :=
  Job.Row (Job.id r) (Job.name r) (Job.enabled r) (Job.schedule_type r) (Job.run_at r)
    (Job.times_of_day r) (Job.time_of_day r) (Job.days_of_week r) (Job.timezone r)
    (Job.message r) (Job.max_retries r) (Job.retry_backoff_sec r)
    (Job.next_run_at r) t.

(** [UPDATE schedule_jobs SET ... WHERE id=%s] *)
Definition update_where_id (job_id : Z) (f : row -> row) (t : table) : table :=
  map (fun r => if Job.id r =? job_id then f r else r) t.

(** [enabled=1 AND next_run_at IS NOT NULL AND next_run_at<=NOW()] *)
Definition due (now_db : Z) (r : row) : bool :=
  Job.enabled r &&
  match Job.next_run_at r with
  | Some t => t <=? now_db
  | None => false
  end.

Definition next_key (r : row) : Z := default 0 (Job.next_run_at r).

(** [ORDER BY next_run_at ASC], rows of equal key in storage order. *)
Fixpoint order_insert (r : row) (l : list row) : list row :=
  match l with
  | [] => [r]
  | u :: l' =>
      if next_key u <=? next_key r then u :: order_insert r l'
      else r :: u :: l'
  end.

Definition order_by_next_run_at (l : list row) : list row :=
  fold_left (fun acc r => order_insert r acc) l [].

End Store.

Definition fetch_due_jobs (h : Host) (utc : Z) (t : Store.table) (batch : Z) : list row :=
  take (Z.to_nat batch)
    (Store.order_by_next_run_at (List.filter (Store.due (mysql_now h utc)) t)).

Definition fetch_job_by_id (t : Store.table) (job_id : Z) : option row :=
  List.find (fun r => Job.id r =? job_id) t.

Definition update_job_after_success (h : Host) (utc : Z) (t : Store.table)
    (job_id : Z) (next_run_at : option Z) (disable : bool) : Store.table :=
  let pause := fun r =>
    Store.set_last_run_at (Some (mysql_now h utc)) (Store.set_enabled false r) in
  if disable then Store.update_where_id job_id pause t
  else
    match next_run_at with
    | None => Store.update_where_id job_id pause t
    | Some nxt =>
        Store.update_where_id job_id
          (fun r => Store.set_enabled true
                      (Store.set_next_run_at (Some nxt)
                         (Store.set_last_run_at (Some (mysql_now h utc)) r))) t
    end.

Definition update_job_after_failure (h : Host) (utc : Z) (t : Store.table)
    (job_id max_retries backoff_sec : Z) : Store.table * option Z :=
  if (negb (max_retries =? 0)) && (0 <? max_retries) then
    let retry_at :=
      Datetime.add_seconds (local_now h utc)
        (if backoff_sec =? 0 then 60 else backoff_sec) in
    (Store.update_where_id job_id
       (fun r => Store.set_last_run_at (Some (mysql_now h utc))
                   (Store.set_next_run_at (Some retry_at) r)) t,
     Some retry_at)
  else (t, None).

(** ** Dispatch *)

(** What [sender.send(job)] returns: [(ok, code, detail)]. *)
Definition send_result : Type := bool * option Z * string.

(** The lines of the log the properties speak of, and the outbound
    calls. *)
Inductive event : Type :=
  | Sent (immediate : bool) (job_id : Z)
  | Success (job_id : Z)
  | Failed (job_id : Z)
  | PauseWarning (job_id : Z)
  | Next (job_id : Z) (next_run : option Z)
  | RetryScheduled (job_id : Z) (retry_at : Z)
  | NotFound (jid : Z)
  | AlreadyInflight (jid : Z)
  | ImmediateError (e : exn)
  | SchedulerError (e : exn).

#[global] Instance exn_eq_dec : EqDecision exn.
Proof. solve_decision. Defined.

#[global] Instance event_eq_dec : EqDecision event.
Proof. solve_decision. Defined.

(** The store and the module-level state of the engine. [trace] lists
    the events oldest first. *)
Record state : Type := State {
  store : Store.table;
  IMMEDIATE_QUEUE : list Z;
  INFLIGHT : gset Z;
  trace : list event
}.

Definition emit (e : event) (st : state) : state :=
  State (store st) (IMMEDIATE_QUEUE st) (INFLIGHT st) (trace st ++ [e])%list.

Definition with_store (t : Store.table) (st : state) : state :=
  State t (IMMEDIATE_QUEUE st) (INFLIGHT st) (trace st).

Definition with_queue (q : list Z) (st : state) : state :=
  State (store st) q (INFLIGHT st) (trace st).

Definition with_inflight (s : gset Z) (st : state) : state :=
  State (store st) (IMMEDIATE_QUEUE st) s (trace st).

(** The number of outbound calls made so far. *)
Definition calls (st : state) : nat :=
  length (List.filter (fun e => match e with Sent _ _ => true | _ => false end) (trace st)).

Section Engine.

Variable h : Host.

(** The sender is outside the engine: [send n job] is what the call
    number [n] (counted from 0) returns for [job]. [Sender.send]
    catches the errors of the transport and answers [ok = False]. *)
Variable send : nat -> row -> send_result.

Variable default_tz : string.

(** [_execute_one]; the second component is the exception that
    escapes, if one does. [utc] is the instant of the dispatch. *)
Definition _execute_one (utc : Z) (job : row) (immediate : bool) (st : state)
  : state * option exn :=
  let job_id := Job.id job in
  let '(ok, code, detail) := send (calls st) job in
  let st := emit (Sent immediate job_id) st in
  if ok then
    let st := emit (Success job_id) st in
    let fresh := default job (fetch_job_by_id (store st) job_id) in
    let disable := String.eqb (stype_of fresh) "ONCE" in
    match compute_next_run_at h utc fresh default_tz with
    | Raise e => (st, Some e)
    | Ok next_run =>
        let paused := negb disable && bool_decide (next_run = None) in
        let st := if paused then emit (PauseWarning job_id) st else st in
        let st :=
          with_store
            (update_job_after_success h utc (store st) job_id next_run disable) st in
        (emit (Next job_id next_run) st, None)
    end
  else
    let st := emit (Failed job_id) st in
    let max_retries := default 0 (Job.max_retries job) in
    let backoff :=
      match Job.retry_backoff_sec job with
      | Some b => if b =? 0 then 60 else b
      | None => 60
      end in
    let '(t, retry_at) :=
      update_job_after_failure h utc (store st) job_id max_retries backoff in
    let st := with_store t st in
    match retry_at with
    | Some at_ => (emit (RetryScheduled job_id at_) st, None)
    | None =>
        let fresh := default job (fetch_job_by_id (store st) job_id) in
        match compute_next_run_at h utc fresh default_tz with
        | Raise e => (st, Some e)
        | Ok next_run =>
            let st :=
              if bool_decide (next_run = None)
              then emit (PauseWarning job_id) st else st in
            let st :=
              with_store
                (update_job_after_success h utc (store st) job_id next_run false) st in
            (emit (Next job_id next_run) st, None)
        end
    end.

(** [drain_immediate(max_n)]: what is taken and what stays queued. *)
Definition drain_immediate (max_n : nat) (q : list Z) : list Z * list Z :=
  (take max_n q, drop max_n q).

(** The body of the loop over [immediate_ids] (lines 540-558). *)
Definition immediate_one (utc : Z) (st : state) (jid : Z) : state :=
  match fetch_job_by_id (store st) jid with
  | None => emit (NotFound jid) st
  | Some jobx =>
      if bool_decide (jid ∈ INFLIGHT st) then emit (AlreadyInflight jid) st
      else
        let st := with_inflight (INFLIGHT st ∪ {[jid]}) st in
        let '(st, raised) := _execute_one utc jobx true st in
        let st := with_inflight (INFLIGHT st ∖ {[jid]}) st in
        match raised with
        | Some e => emit (ImmediateError e) st
        | None => st
        end
  end.

(** The loop over [jobs] (lines 560-600), whose body is the text of
    [_execute_one] with [immediate=False]; an exception leaves the
    loop for the handler of line 603. *)
Fixpoint scheduled_pass (utc : Z) (jobs : list row) (st : state) : state :=
  match jobs with
  | [] => st
  | job :: rest =>
      match _execute_one utc job false st with
      | (st, Some e) => emit (SchedulerError e) st
      | (st, None) => scheduled_pass utc rest st
      end
  end.

(** One turn of the [while True] of [run_loop]. *)
Definition poll_cycle (batch : Z) (utc : Z) (st : state) : state :=
  let jobs := fetch_due_jobs h utc (store st) batch in
  let '(immediate_ids, q) := drain_immediate 50 (IMMEDIATE_QUEUE st) in
  let st := with_queue q st in
  let st := fold_left (immediate_one utc) immediate_ids st in
  scheduled_pass utc jobs st.

End Engine.

(** ** The control handler *)

Module Control.

(** A GET request after [urlparse]: the path, the decoded name/value
    pairs of the query in order, and the header lines. *)
Record request : Type := Request {
  path : string;
  query : list (string * string);
  headers : list (string * string)
}.

Inductive body : Type :=
  | BodyOk
  | BodyQueued (jid : Z)
  | BodyError (error : string).

Record response : Type := Response {
  code : Z;
  payload : body
}.

(** [qs.get(k, [None])[0]] on the result of [parse_qs], which drops
    the pairs whose value is blank: the first value given for [k]. *)
Definition qs_first (qs : list (string * string)) (k : string) : option string :=
  dict_get (List.filter (fun kv => PyStr.truthy (snd kv)) qs) k.

(** [self.headers.get(name)]: header names compare without case. *)
Fixpoint header_get (hs : list (string * string)) (name : string) : option string :=
  match hs with
  | [] => None
  | (k, v) :: hs' =>
      if String.eqb (PyStr.upper k) (PyStr.upper name) then Some v
      else header_get hs' name
  end.

(** [a or b] where both are a string or [None]. *)
Definition opt_or_opt (a b : option string) : option string :=
  match a with
  | Some s => if PyStr.truthy s then a else b
  | None => b
  end.

(** The credential line 135 compares with the configured token. *)
Definition presented_token (req : request) : option string :=
  opt_or_opt (qs_first (query req) "token") (header_get (headers req) "X-Token").

(** [do_GET]: the response and the immediate queue afterwards. *)
Definition do_GET (control_token : string) (req : request) (queue : list Z)
  : response * list Z :=
  if negb (String.eqb (path req) "/run_immediate" || String.eqb (path req) "/health")
  then (Response 404 (BodyError "not_found"), queue)
  else if String.eqb (path req) "/health" then (Response 200 BodyOk, queue)
  else
    let job_id := qs_first (query req) "job_id" in
    let token := presented_token req in
    if PyStr.truthy control_token && negb (bool_decide (token = Some control_token))
    then (Response 403 (BodyError "forbidden"), queue)
    else
      match job_id with
      | None => (Response 400 (BodyError "missing_job_id"), queue)
      | Some text =>
          match PyStr.int text with
          | None => (Response 400 (BodyError "bad_job_id"), queue)
          | Some jid => (Response 200 (BodyQueued jid), (queue ++ [jid])%list)
          end
      end.

End Control.

(** ** Configuration *)

Module Config.

(** JSON documents; an object keeps its members in order. *)
#[local] Unset Elimination Schemes.
Inductive json : Type :=
  | JNull
  | JBool (b : bool)
  | JInt (n : Z)
  | JStr (s : string)
  | JArr (items : list json)
  | JObj (members : list (string * json)).
#[local] Set Elimination Schemes.

Definition DEFAULT_CONFIG : json :=
  JObj [
    ("db", JObj [("host", JStr "127.0.0.1"); ("port", JInt 3306); ("user", JStr "jj");
                 ("password", JStr "jamesjian"); ("database", JStr "smartcare");
                 ("pool_size", JInt 5); ("connect_timeout", JInt 10);
                 ("charset", JStr "utf8mb4")]);
    ("scheduler", JObj [("poll_interval_sec", JInt 2); ("batch", JInt 20);
                        ("mysql_session_time_zone", JStr "+08:00");
                        ("default_timezone", JStr "Asia/Taipei"); ("log_file", JStr "");
                        ("control_enabled", JBool true);
                        ("control_host", JStr "127.0.0.1");
                        ("control_port", JInt 5055);
                        ("control_token", JStr "CHANGE_ME")]);
    ("mqtt", JObj [("host", JStr "broker.emqx.io"); ("port", JInt 1883);
                   ("username", JStr ""); ("password", JStr "");
                   ("client_id_prefix", JStr "sched-"); ("keepalive", JInt 30);
                   ("tls", JBool false)]);
    ("http", JObj [("user_agent", JStr "JJ-Scheduler/3.0"); ("verify_tls", JBool true)])
  ].

(** The file at the configuration path: absent, or present with a
    text that is a JSON document or is not. *)
Inductive file : Type :=
  | Absent
  | Document (doc : json)
  | Garbage.

Inductive output : Type :=
  | Warn (text : string).

(** [d.setdefault(k, v)] *)
Definition setdefault (d : list (string * json)) (k : string) (v : json)
  : list (string * json) :=
  match dict_get d k with
  | Some _ => d
  | None => (d ++ [(k, v)])%list
  end.

(** [d[k] = v] *)
Fixpoint setitem (d : list (string * json)) (k : string) (v : json)
  : list (string * json) :=
  match d with
  | [] => [(k, v)]
  | (k', v') :: d' =>
      if String.eqb k k' then (k, v) :: d' else (k', v') :: setitem d' k v
  end.

(** One turn of the loop of lines 63-68. *)
Definition merge_key (cfg : result (list (string * json))) (kv : string * json)
  : result (list (string * json)) :=
  let* cfg := cfg in
  let '(k, v) := kv in
  match dict_get cfg k with
  | None => Ok (setitem cfg k v)
  | Some sub =>
      match v with
      | JObj defaults =>
          match sub with
          | JObj members =>
              Ok (setitem cfg k
                    (JObj (fold_left (fun d kkvv => setdefault d (fst kkvv) (snd kkvv))
                             defaults members)))
          | _ => Raise AttributeError
          end
      | _ => Ok cfg
      end
  end.

(** [load_config(path)], given the file at [path]: the file
    afterwards, what is printed, and the configuration returned. *)
Definition load_config (path : string) (f : file) : file * list output * result json :=
  let '(f, out) :=
    match f with
    | Absent =>
        (Document DEFAULT_CONFIG,
         [Warn (String.append "[WARN] config.json not found. Created default at: " path)])
    | _ => (f, [])
    end in
  match f with
  | Document (JObj cfg) =>
      match DEFAULT_CONFIG with
      | JObj defaults =>
          (f, out, let* merged := fold_left merge_key defaults (Ok cfg) in Ok (JObj merged))
      | _ => (f, out, Raise TypeError)
      end
  | Document _ => (f, out, Raise TypeError)
  | _ => (f, out, Raise JSONDecodeError)
  end.

(** [cfg[section][key]] when both exist. *)
Definition lookup2 (cfg : json) (section key : string) : option json :=
  match cfg with
  | JObj members =>
      match dict_get members section with
      | Some (JObj sub) => dict_get sub key
      | _ => None
      end
  | _ => None
  end.

(** [str(cfg['scheduler'].get('control_token', '') or '')] of
    [run_loop], for a token that is a string. *)
Definition ctrl_token (cfg : json) : string :=
  match lookup2 cfg "scheduler" "control_token" with
  | Some (JStr s) => s
  | _ => ""
  end.

End Config.

(** ** Vocabulary of the properties *)


(** The host [h] with no zone database: [ZoneInfo] always fails. *)
Definition without_zones (h : Host) : Host :=
  Build_Host (fun _ => None) (fromisoformat h) (local_now h) (mysql_now h).

(** The same row with another [timezone] cell. *)
Definition with_timezone (tz : option string) (r : row) : row :=
  Job.Row (Job.id r) (Job.name r) (Job.enabled r) (Job.schedule_type r) (Job.run_at r)
    (Job.times_of_day r) (Job.time_of_day r) (Job.days_of_week r) tz
    (Job.message r) (Job.max_retries r) (Job.retry_backoff_sec r)
    (Job.next_run_at r) (Job.last_run_at r).

(** The [timezone] cell is NULL, empty or white space only. *)
Definition tz_blank (job : row) : Prop :=
  PyStr.strip (PyStr.opt_or (Job.timezone job) "") = "".

(** The row the dispatch procedure re-reads after sending [job]
    ([fetch_job_by_id(conn, job_id) or job]). *)
Definition reread (st : state) (job : row) : row :=
  default job (fetch_job_by_id (store st) (Job.id job)).

(** What the two pausing statements of [update_job_after_success] do to
    a row: [enabled=0, last_run_at=NOW()]. *)
Definition pause_row (h : Host) (utc : Z) (r : row) : row :=
  Store.set_last_run_at (Some (mysql_now h utc)) (Store.set_enabled false r).

(** What the statement of [update_job_after_failure] does to a row. *)
Definition retry_row (h : Host) (utc : Z) (retry_at : Z) (r : row) : row :=
  Store.set_last_run_at (Some (mysql_now h utc))
    (Store.set_next_run_at (Some retry_at) r).

(** [int(job.get("retry_backoff_sec") or 60)] *)
Definition backoff_of (job : row) : Z :=
  match Job.retry_backoff_sec job with
  | Some b => if b =? 0 then 60 else b
  | None => 60
  end.

(** [sender.send(job)] answers [ok] at the next call. *)
Definition send_ok (send : nat -> row -> send_result) (st : state) (job : row) : bool :=
  fst (fst (send (calls st) job)).

Definition recurring (job : row) : Prop :=
  stype_of job = "DAILY" \/ stype_of job = "WEEKLY".

(** The times list of the row is empty. *)
Definition times_empty (job : row) : Prop := _parse_times job = Ok [].

(** A WEEKLY row whose times parse and whose [days_of_week] holds no
    recognised weekday. *)
Definition no_weekday (job : row) : Prop :=
  stype_of job = "WEEKLY" /\
  (exists times, _parse_times job = Ok times) /\
  _parse_days (Job.days_of_week job) = [].

(** The schedule type is none of ONCE, DAILY, WEEKLY. *)
Definition unknown_type (job : row) : Prop :=
  stype_of job <> "ONCE" /\ stype_of job <> "DAILY" /\ stype_of job <> "WEEKLY".

(** The outbound calls among the events: which path made the call,
    and for which job id. *)
Definition sends (l : list event) : list (bool * Z) :=
  omap (fun e => match e with Sent imm j => Some (imm, j) | _ => None end) l.

(** The events a dispatch writes after its outbound call. *)
Definition quiet (e : event) : bool :=
  match e with
  | Sent _ _ | AlreadyInflight _ => false
  | _ => true
  end.


(** ** Concrete hosts and rows for the examples *)

Module Fixture.

Definition zones (n : string) : option Datetime.zone :=
  if String.eqb n "Asia/Taipei" then Some (Datetime.fixed 28800)
  else if String.eqb n "UTC" then Some (Datetime.fixed 0)
  else None.

(** [NOW()] of a session at [+08:00], to the second. *)
Definition now_plus8 (utc : Z) : Z :=
  (utc + 28800 * Datetime.us_per_sec) / Datetime.us_per_sec * Datetime.us_per_sec.

(** A machine whose own zone is UTC. No example gives a text to
    [fromisoformat]. *)
Definition host_utc : Host :=
  Build_Host zones (fun _ => None) (fun utc => utc) now_plus8.

(** A machine whose own zone is at [+08:00]. *)
Definition host_taipei : Host :=
  Build_Host zones (fun _ => None)
    (fun utc => utc + 28800 * Datetime.us_per_sec) now_plus8.

Definition http_get : Job.delivery :=
  Job.Delivery (Some "HTTP") (Some "http://127.0.0.1:8000/echo") (Some "GET")
    None None None None None None None.

(** Scenario 2 of the specification: DAILY at 08:00 and 20:00. *)
Definition daily : row :=
  Job.Row 7 (Some "daily report") true (Some "DAILY") RunNone (Some "08:00,20:00")
    TodNone DaysNone (Some "Asia/Taipei") http_get None None None None.

(** Scenario 3 of the specification: WEEKLY on Mon, Wed, Fri at 10:00,
    the weekdays as the set the connector returns. *)
Definition weekly_mwf : row :=
  Job.Row 8 (Some "weekly sync") true (Some "WEEKLY") RunNone (Some "10:00")
    TodNone (DaysColl ["Fri"; "Mon"; "Wed"]) (Some "Asia/Taipei") http_get
    None None None None.

(** Property 7 of the specification: WEEKLY on Sat at 09:00, the
    weekdays as text. *)
Definition weekly_sat : row :=
  Job.Row 10 (Some "weekend") true (Some "weekly") RunNone (Some "09:00")
    TodNone (DaysOther "saturday") (Some "Asia/Taipei") http_get
    None None None None.

(** The same schedule in a zone the database does not know. *)
Definition daily_unknown_zone : row := with_timezone (Some "Mars/Olympus") daily.

(** 2029-12-31 23:59:30 UTC, which is 2030-01-01 07:59:30 at +08:00. *)
Definition just_before_eight : Z := Datetime.at_ 2029 12 31 23 59 30.

(** 2030-01-01 00:30:00 UTC, which is 08:30:00 at +08:00. *)
Definition half_past_midnight_utc : Z := Datetime.at_ 2030 1 1 0 30 0.

(** 2030-01-01 04:00:00 UTC: noon at +08:00. *)
Definition noon : Z := Datetime.at_ 2030 1 1 4 0 0.

(** [n] seconds after [noon]. *)
Definition noon_plus (n : Z) : Z := Datetime.add_seconds noon n.

(** An enabled row at +08:00 that came due at 11:00 of that day. *)
Definition job_of (id : Z) (stype : string) (run_at : run_value)
    (times : option string) (days : days_value) (retries backoff : option Z) : row :=
  Job.Row id None true (Some stype) run_at times TodNone days (Some "Asia/Taipei")
    http_get retries backoff (Some (Datetime.at_ 2030 1 1 11 0 0)) None.

(** DAILY with an empty times list, two retries 30 s apart. *)
Definition daily_no_times : row :=
  job_of 3 "DAILY" RunNone (Some "") DaysNone (Some 2) (Some 30).

(** DAILY with a times text that does not parse. *)
Definition daily_bad_times : row :=
  job_of 4 "DAILY" RunNone (Some "8am") DaysNone None None.

(** Scenario 4 of the specification: two retries 30 s apart. *)
Definition flaky : row :=
  job_of 5 "DAILY" RunNone (Some "08:00") DaysNone (Some 2) (Some 30).

(** A retry delay of zero seconds. *)
Definition eager : row :=
  job_of 6 "DAILY" RunNone (Some "08:00") DaysNone (Some 1) (Some 0).

(** ONCE, with a left-over times text that does not parse. *)
Definition once_bad_times : row :=
  job_of 9 "ONCE" (RunDatetime (Datetime.at_ 2030 1 1 11 0 0)) (Some "8am")
    DaysNone None None.

(** A schedule type the resolver does not know, with retries. *)
Definition monthly : row :=
  job_of 11 "MONTHLY" RunNone (Some "08:00") DaysNone (Some 2) (Some 30).

(** The same without retries and with a times text that does not
    parse. *)
Definition monthly_bad_times : row :=
  job_of 12 "MONTHLY" RunNone (Some "8am") DaysNone None None.

(** Job 42 of scenario 5, due at 11:00. *)
Definition job42 : row :=
  job_of 42 "DAILY" RunNone (Some "08:00,20:00") DaysNone None None.

(** A sender whose every call fails with status 500. *)
Definition fail_send : nat -> row -> send_result :=
  fun _ _ => (false, Some 500, "Internal Server Error").

(** A sender whose every call succeeds with status 200. *)
Definition ok_send : nat -> row -> send_result :=
  fun _ _ => (true, Some 200, "ok").

(** The engine state with the given table and queue, nothing in
    flight and no event yet. *)
Definition fresh_state (t : Store.table) (q : list Z) : state := State t q ∅ [].

End Fixture.

(** ** Vocabulary of the further properties *)

(** A time of day as [datetime.time] accepts it. *)
Definition valid_time (t : dtime) : Prop :=
  0 <= hour t < 24 /\ 0 <= minute t < 60 /\ 0 <= second t < 60.

(** Tuple comparison [a < b] on the sort keys. *)
Definition key_lt (a b : Z * Z * Z) : Prop :=
  let '(h1, m1, s1) := a in
  let '(h2, m2, s2) := b in
  h1 < h2 \/ (h1 = h2 /\ (m1 < m2 \/ (m1 = m2 /\ s1 < s2))).

Definition time_lt (a b : dtime) : Prop := key_lt (time_key a) (time_key b).

(** The wall clocks the DAILY and WEEKLY loops may return for the times
    list [times]: a time of the list on some day. *)
Definition candidate (times : list dtime) (d : Z) (c : Z) : Prop :=
  exists tm, In tm times /\ c = Datetime.combine d tm.

(** The same row with another [time_of_day] cell. *)
Definition with_time_of_day (x : tod_value) (r : row) : row :=
  Job.Row (Job.id r) (Job.name r) (Job.enabled r) (Job.schedule_type r) (Job.run_at r)
    (Job.times_of_day r) x (Job.days_of_week r) (Job.timezone r)
    (Job.message r) (Job.max_retries r) (Job.retry_backoff_sec r)
    (Job.next_run_at r) (Job.last_run_at r).

(** Two rows that differ at most in the three cells the engine writes:
    [enabled], [next_run_at] and [last_run_at]. *)
Definition same_definition (r r' : row) : Prop :=
  Job.id r' = Job.id r /\ Job.name r' = Job.name r /\
  Job.schedule_type r' = Job.schedule_type r /\ Job.run_at r' = Job.run_at r /\
  Job.times_of_day r' = Job.times_of_day r /\ Job.time_of_day r' = Job.time_of_day r /\
  Job.days_of_week r' = Job.days_of_week r /\ Job.timezone r' = Job.timezone r /\
  Job.message r' = Job.message r /\ Job.max_retries r' = Job.max_retries r /\
  Job.retry_backoff_sec r' = Job.retry_backoff_sec r.

(** The order of [ORDER BY next_run_at ASC]. *)
Definition next_le (a b : row) : Prop := Store.next_key a <= Store.next_key b.

(** What the rescheduling statement of [update_job_after_success] does
    to a row. *)
Definition advance_row (h : Host) (utc : Z) (nxt : Z) (r : row) : row :=
  Store.set_enabled true
    (Store.set_next_run_at (Some nxt)
       (Store.set_last_run_at (Some (mysql_now h utc)) r)).

(** The weekday [_parse_days] reads from one token, if any: the token
    is trimmed, a blank one is dropped, a known name is normalised, and
    the result is looked up in [DOW_MAP]. *)
Definition day_of_token (t : string) : option Z :=
  let t := PyStr.strip t in
  if PyStr.truthy t then dict_get DOW_MAP (default t (dict_get norm (PyStr.upper t)))
  else None.



(** ** The sender *)

Module Sender.

(** [s.lower()] *)
Definition lower_char (c : ascii) : ascii :=
  let n := PyStr.code c in
  if (65 <=? n) && (n <=? 90) then ascii_of_N (Z.to_N (n + 32)) else c.

Fixpoint lower (s : string) : string :=
  match s with
  | EmptyString => EmptyString
  | String c s' => String (lower_char c) (lower s')
  end.

(** [s[:n]] *)
Fixpoint head (n : nat) (s : string) : string :=
  match n, s with
  | S n', String c s' => String c (head n' s')
  | _, _ => EmptyString
  end.

(** What goes out with a request: nothing for GET, [json=obj] (a parsed
    document, or the text itself when it does not parse or is blank), or
    [data=text]. *)
Inductive http_body : Type :=
  | NoBody
  | JsonBody (obj : Config.json + string)
  | DataBody (data : string).

Record http_request : Type := HttpRequest {
  is_get : bool;
  url : string;
  headers : option Config.json;
  body : http_body;
  timeout : Z;
  verify : bool
}.

(** The libraries and the network the sender stands on. A call of the
    network returns its answer or the text of the exception it raised. *)
Record transport : Type := Transport {
  (** [self.http and requests] *)
  requests_available : bool;
  (** [json.loads], [None] when it raises *)
  json_loads : string -> option Config.json;
  (** [self.http.get] / [self.http.post]: status code and body text *)
  http_call : http_request -> (Z * string) + string;
  (** [self.mqtt and mqtt] *)
  mqtt_available : bool;
  (** [self.mqtt_ready] when the send begins *)
  mqtt_ready : bool;
  (** [self.mqtt.connect(...)] then [loop_start()] *)
  mqtt_connect : option string;
  (** [self.mqtt.publish(topic, payload, qos, retain)]: [info.rc] *)
  mqtt_publish : string -> string -> Z -> bool -> Z + string
}.

(** [int(x or d)] for an integer cell. *)
Definition int_or (x : option Z) (d : Z) : Z :=
  match x with
  | Some n => if n =? 0 then d else n
  | None => d
  end.

(** The request [_send_http] builds (lines 382-404). *)
Definition build_request (t : transport) (verify_tls : bool) (url : string)
    (m : Job.delivery) : http_request :=
  let method := PyStr.upper (PyStr.strip (PyStr.opt_or (Job.http_method m) "POST")) in
  let payload := PyStr.opt_or (Job.payload m) "" in
  let ctype := PyStr.strip (PyStr.opt_or (Job.content_type m) "text/plain") in
  let headers :=
    match Job.http_headers_json m with
    | Some hj => if PyStr.truthy hj then json_loads t hj else None
    | None => None
    end in
  let timeout := int_or (Job.timeout_sec m) 10 in
  if String.eqb method "GET" then HttpRequest true url headers NoBody timeout verify_tls
  else if String.prefix "application/json" (lower ctype) then
    let obj :=
      if PyStr.truthy (PyStr.strip payload) then
        match json_loads t payload with
        | Some j => inl j
        | None => inr payload
        end
      else inr payload in
    HttpRequest false url headers (JsonBody obj) timeout verify_tls
  else HttpRequest false url headers (DataBody payload) timeout verify_tls.

Definition _send_http (t : transport) (verify_tls : bool) (job : row) : send_result :=
  if negb (requests_available t) then (false, None, "requests not available")
  else
    let url := PyStr.strip (PyStr.opt_or (Job.http_url (Job.message job)) "") in
    if negb (PyStr.truthy url) then (false, None, "http_url empty")
    else
      match http_call t (build_request t verify_tls url (Job.message job)) with
      | inl (status_code, text) =>
          ((200 <=? status_code) && (status_code <? 300), Some status_code, head 500 text)
      | inr e => (false, None, String.append "HTTP request error: " e)
      end.

Definition _send_mqtt (t : transport) (job : row) : send_result :=
  if negb (mqtt_available t) then (false, None, "paho-mqtt not available")
  else
    let m := Job.message job in
    let topic := PyStr.strip (PyStr.opt_or (Job.mqtt_topic m) "") in
    if negb (PyStr.truthy topic) then (false, None, "mqtt_topic empty")
    else
      let qos := int_or (Job.qos m) 0 in
      let retained := default false (Job.retained m) in
      let payload := PyStr.opt_or (Job.payload m) "" in
      let publish :=
        match mqtt_publish t topic payload qos retained with
        | inl rc => ((rc =? 0), Some (if rc =? 0 then 0 else rc), "published")
        | inr e => (false, None, String.append "MQTT publish error: " e)
        end in
      if mqtt_ready t then publish
      else
        match mqtt_connect t with
        | Some e => (false, None, String.append "MQTT reconnect failed: " e)
        | None => publish
        end.

(** [Sender.send] *)
Definition send (t : transport) (verify_tls : bool) (job : row) : send_result :=
  let ch := PyStr.upper (PyStr.strip (PyStr.opt_or (Job.channel (Job.message job)) "")) in
  if String.eqb ch "HTTP" then _send_http t verify_tls job
  else if String.eqb ch "MQTT" then _send_mqtt t job
  else (false, None, "Unsupported channel").

End Sender.

(** A transport for the examples: every request is answered 200 with
    the body [ok], the broker is connected and acknowledges every
    publish, and no text parses as JSON. *)
Definition echo_transport : Sender.transport :=
  Sender.Transport true (fun _ => None) (fun _ => inl (200, "ok"))
    true true None (fun _ _ _ _ => inl 0).

(** A transport whose network is down: every request and every publish
    raises, and the broker is not connected. *)
Definition dead_transport : Sender.transport :=
  Sender.Transport true (fun _ => None) (fun _ => inr "connection refused")
    true false (Some "connection refused") (fun _ _ _ _ => inr "not connected").

(** A row whose channel the sender does not know. *)
Definition smtp_job : row :=
  Job.Row 13 None true (Some "DAILY") RunNone (Some "08:00") TodNone DaysNone None
    (Job.Delivery (Some "smtp") None None None None (Some "hello") None None None None)
    None None None None.

(** A row published over MQTT. *)
Definition mqtt_job : row :=
  Job.Row 14 None true (Some "DAILY") RunNone (Some "08:00") TodNone DaysNone None
    (Job.Delivery (Some "mqtt") None None None None (Some "on") (Some "home/lamp")
       (Some 1) (Some true) None)
    None None None None.

(** * Properties *)

(** ** The primitives on examples *)

Example parse_hhmm : _parse_time_of_day_str "08:30" = Ok (Dtime 8 30 0 0).
Proof. reflexivity. Qed.

Example parse_short_hour_raises : _parse_time_of_day_str "8:00" = Raise ValueError.
Proof. reflexivity. Qed.

Example parse_word_raises : _parse_time_of_day_str "8am" = Raise ValueError.
Proof. reflexivity. Qed.

Example parse_hour_out_of_range : _parse_time_of_day_str "25:00" = Raise ValueError.
Proof. reflexivity. Qed.

Example ordinal_2030 : Datetime.ordinal 2030 1 1 = 741078.
Proof. reflexivity. Qed.

(** 2030-01-01 is a Tuesday. *)
Example weekday_2030 : Datetime.weekday (Datetime.ordinal 2030 1 1) = 1.
Proof. reflexivity. Qed.

Example parse_days_csv : _parse_days (DaysOther "sunday, Mon,xx,,MON ,fri") = [0; 4; 6].
Proof. reflexivity. Qed.

(** ** The resolver on the scenarios of the specification *)

(** Scenario 2: at 07:59:30 the next firing is 08:00 of the same day,
    and right after that firing it is 20:00. *)
Example daily_scenario :
  compute_next_run_at Fixture.host_utc Fixture.just_before_eight Fixture.daily "Asia/Taipei"
    = Ok (Some (Datetime.at_ 2030 1 1 8 0 0)) /\
  compute_next_run_at Fixture.host_utc (Datetime.at_ 2030 1 1 0 0 0) Fixture.daily
    "Asia/Taipei"
    = Ok (Some (Datetime.at_ 2030 1 1 20 0 0)).
Proof. vm_compute. split; reflexivity. Qed.

(** Scenario 3: on Tuesday 11:00 the next firing is Wednesday 10:00. *)
Example weekly_scenario :
  compute_next_run_at Fixture.host_utc (Datetime.at_ 2030 1 1 3 0 0) Fixture.weekly_mwf
    "Asia/Taipei"
    = Ok (Some (Datetime.at_ 2030 1 2 10 0 0)).
Proof. vm_compute. reflexivity. Qed.

(** Property 7: on Friday 23:59:59 at +08:00 the next firing is
    Saturday 09:00 there, which a session in UTC stores as 01:00. *)
Example weekly_zone_scenario :
  compute_next_run_at Fixture.host_utc (Datetime.at_ 2030 1 4 15 59 59) Fixture.weekly_sat
    "Asia/Taipei"
    = Ok (Some (Datetime.at_ 2030 1 5 9 0 0)) /\
  compute_next_run_at Fixture.host_utc (Datetime.at_ 2030 1 4 15 59 59) Fixture.weekly_sat
    "UTC"
    = Ok (Some (Datetime.at_ 2030 1 5 1 0 0)).
Proof. vm_compute. split; reflexivity. Qed.

(** ** The resolver only returns wall clocks after [now] *)

Section ResolverScan.

Variable now : Z.





End ResolverScan.



(** ** What the resolver reads from the host *)

(** C1, as stated, fails: the same row, the same instant and the same
    default zone name give 08:00 on a machine whose own zone is UTC and
    20:00 on a machine at +08:00, the zone database and the ISO parser
    being the same, because the row's zone name does not resolve and
    line 256 then takes the machine's own wall clock. *)
Lemma resolver_depends_on_host_zone :
  ZoneInfo Fixture.host_utc = ZoneInfo Fixture.host_taipei /\
  fromisoformat Fixture.host_utc = fromisoformat Fixture.host_taipei /\
  compute_next_run_at Fixture.host_utc Fixture.half_past_midnight_utc
    Fixture.daily_unknown_zone "Asia/Taipei"
    = Ok (Some (Datetime.at_ 2030 1 1 8 0 0)) /\
  compute_next_run_at Fixture.host_taipei Fixture.half_past_midnight_utc
    Fixture.daily_unknown_zone "Asia/Taipei"
    = Ok (Some (Datetime.at_ 2030 1 1 20 0 0)) /\
  compute_next_run_at Fixture.host_utc Fixture.half_past_midnight_utc
    Fixture.daily_unknown_zone "Asia/Taipei"
    <> compute_next_run_at Fixture.host_taipei Fixture.half_past_midnight_utc
         Fixture.daily_unknown_zone "Asia/Taipei".
Proof.
  split; [reflexivity|]. split; [reflexivity|].
  split; [vm_compute; reflexivity|]. split; [vm_compute; reflexivity|].
  vm_compute. discriminate.
Qed.

(** C1, amended. On two hosts with the same zone database and the same
    ISO parser, the resolver returns the same instant-or-none for the
    same row, instant and default zone name whenever the row's zone
    name resolves to a zone: the machine's own clock zone is then not
    read. *)
Theorem resolver_host_independent_when_zone_resolves
    (h1 h2 : Host) (utc : Z) (job : row) (default_tz : string) :
  (forall n, ZoneInfo h1 n = ZoneInfo h2 n) ->
  (forall s, fromisoformat h1 s = fromisoformat h2 s) ->
  is_Some (_get_zoneinfo h1 (job_tz_name job default_tz)) ->
  compute_next_run_at h1 utc job default_tz = compute_next_run_at h2 utc job default_tz.
Proof.
  intros Hz Hf [zj Hj].
  unfold compute_next_run_at, _get_zoneinfo in *.
  rewrite <- !Hz, Hj.
  destruct (_parse_times job) as [times|e]; cbn [rbind]; [|reflexivity].
  destruct (Job.run_at job) as [|dt|s]; try reflexivity.
  rewrite <- Hf. reflexivity.
Qed.

Lemma resolver_host_independent_when_zone_resolves_witness :
  compute_next_run_at Fixture.host_utc Fixture.just_before_eight Fixture.daily "Asia/Taipei"
  = compute_next_run_at Fixture.host_taipei Fixture.just_before_eight Fixture.daily
      "Asia/Taipei".
Proof.
  apply (resolver_host_independent_when_zone_resolves Fixture.host_utc Fixture.host_taipei).
  - intros n. reflexivity.
  - intros s. reflexivity.
  - vm_compute. eexists. reflexivity.
Defined.

(** ** The zone the resolver works in *)

(** C7, as stated, fails for a zone name that does not parse: with the
    default zone Asia/Taipei on a machine whose own zone is UTC, the
    row with the unknown zone gets 08:00 (the machine's wall clock was
    00:30), while the engine default zone, where it was 08:30, gives
    20:00, as the same row with an empty [timezone] shows. *)
Lemma unparseable_zone_is_not_the_default :
  _get_zoneinfo Fixture.host_utc (job_tz_name Fixture.daily_unknown_zone "Asia/Taipei")
    = None /\
  compute_next_run_at Fixture.host_utc Fixture.half_past_midnight_utc
    Fixture.daily_unknown_zone "Asia/Taipei"
    = Ok (Some (Datetime.at_ 2030 1 1 8 0 0)) /\
  compute_next_run_at Fixture.host_utc Fixture.half_past_midnight_utc
    (with_timezone None Fixture.daily_unknown_zone) "Asia/Taipei"
    = Ok (Some (Datetime.at_ 2030 1 1 20 0 0)) /\
  compute_next_run_at Fixture.host_utc Fixture.half_past_midnight_utc
    Fixture.daily_unknown_zone "Asia/Taipei"
    <> compute_next_run_at Fixture.host_utc Fixture.half_past_midnight_utc
         (with_timezone None Fixture.daily_unknown_zone) "Asia/Taipei".
Proof.
  split; [reflexivity|].
  split; [vm_compute; reflexivity|]. split; [vm_compute; reflexivity|].
  vm_compute. discriminate.
Qed.

Lemma strip_idempotent_or (s : string) :
  PyStr.strip s = s -> PyStr.or_ (PyStr.strip s) s = s.
Proof. intros ->. unfold PyStr.or_. destruct (PyStr.truthy s); reflexivity. Qed.

(** C7, amended. When the [timezone] cell is NULL, empty or white space
    only, the zone name the resolver uses is the engine default (given
    without surrounding white space), so the current wall clock is that
    of the default zone. When the cell names a zone that does not
    resolve, the resolver does not fall back to the default zone: the
    current wall clock is the machine's own, and the result is the one
    computed with no zone at all, candidates being returned as they are. *)
Theorem resolver_zone_fallback
    (h : Host) (utc : Z) (job : row) (default_tz : string) :
  (tz_blank job -> PyStr.strip default_tz = default_tz ->
     job_tz_name job default_tz = default_tz /\
     now_of h (_get_zoneinfo h (job_tz_name job default_tz)) utc
       = now_of h (_get_zoneinfo h default_tz) utc /\
     compute_next_run_at h utc job default_tz
       = compute_next_run_at h utc (with_timezone (Some default_tz) job) default_tz) /\
  (_get_zoneinfo h (job_tz_name job default_tz) = None ->
     now_of h (_get_zoneinfo h (job_tz_name job default_tz)) utc = local_now h utc /\
     compute_next_run_at h utc job default_tz
       = compute_next_run_at (without_zones h) utc job default_tz).
Proof.
  split.
  - intros Hb Hs.
    assert (Hname : job_tz_name job default_tz = default_tz).
    { unfold tz_blank in Hb. unfold job_tz_name.
      destruct (Job.timezone job) as [s|]; cbn [PyStr.opt_or] in *.
      + unfold PyStr.or_ at 2. unfold PyStr.or_ in Hb at 1.
        destruct (PyStr.truthy s) eqn:Es.
        * rewrite Hb. reflexivity.
        * now apply strip_idempotent_or.
      + now apply strip_idempotent_or. }
    assert (Hname' : job_tz_name (with_timezone (Some default_tz) job) default_tz
                     = default_tz).
    { unfold job_tz_name, with_timezone. cbn [Job.timezone PyStr.opt_or].
      unfold PyStr.or_ at 2. destruct (PyStr.truthy default_tz);
        now apply strip_idempotent_or. }
    split; [exact Hname|]. split; [rewrite Hname; reflexivity|].
    unfold compute_next_run_at. rewrite Hname, Hname'. reflexivity.
  - intros Hn. split; [rewrite Hn; reflexivity|].
    unfold compute_next_run_at. rewrite Hn.
    unfold without_zones, _get_zoneinfo; cbn [ZoneInfo fromisoformat local_now].
    destruct (_parse_times job) as [times|e]; cbn [rbind]; [|reflexivity].
    unfold to_session. reflexivity.
Qed.

Lemma resolver_zone_fallback_witness :
  (job_tz_name (with_timezone (Some "  ") Fixture.daily) "Asia/Taipei" = "Asia/Taipei" /\
   now_of Fixture.host_utc
     (_get_zoneinfo Fixture.host_utc
        (job_tz_name (with_timezone (Some "  ") Fixture.daily) "Asia/Taipei"))
     Fixture.half_past_midnight_utc
   = now_of Fixture.host_utc (_get_zoneinfo Fixture.host_utc "Asia/Taipei")
       Fixture.half_past_midnight_utc /\
   compute_next_run_at Fixture.host_utc Fixture.half_past_midnight_utc
     (with_timezone (Some "  ") Fixture.daily) "Asia/Taipei"
   = compute_next_run_at Fixture.host_utc Fixture.half_past_midnight_utc
       (with_timezone (Some "Asia/Taipei") (with_timezone (Some "  ") Fixture.daily))
       "Asia/Taipei") /\
  compute_next_run_at Fixture.host_utc Fixture.half_past_midnight_utc
    Fixture.daily_unknown_zone "Asia/Taipei"
  = compute_next_run_at (without_zones Fixture.host_utc) Fixture.half_past_midnight_utc
      Fixture.daily_unknown_zone "Asia/Taipei".
Proof.
  split.
  - apply (proj1 (resolver_zone_fallback Fixture.host_utc Fixture.half_past_midnight_utc
                    (with_timezone (Some "  ") Fixture.daily) "Asia/Taipei"));
      reflexivity.
  - apply (proj2 (resolver_zone_fallback Fixture.host_utc Fixture.half_past_midnight_utc
                    Fixture.daily_unknown_zone "Asia/Taipei")).
    reflexivity.
Defined.

(** ** The authorisation gate of the control handler *)

(** C3, as stated, fails: with the token [s3cret] configured, a request
    whose [X-Token] header is the configured token but whose [token]
    query parameter is another text receives 403 and queues nothing. *)
Lemma matching_header_rejected_after_wrong_query_token :
  Control.do_GET "s3cret"
    (Control.Request "/run_immediate" [("job_id", "42"); ("token", "wrong")]
       [("X-Token", "s3cret")]) []
  = (Control.Response 403 (Control.BodyError "forbidden"), []).
Proof. reflexivity. Qed.

Lemma truthy_nonempty (s : string) : s <> "" -> PyStr.truthy s = true.
Proof. destruct s; [congruence|reflexivity]. Qed.

(** C3, amended. With a non-empty token configured, GET /run_immediate
    compares one credential with it: the [token] query parameter when
    that is present and not empty, otherwise the [X-Token] header. The
    request is processed as it would be with no token configured when
    that credential equals the configured token, and receives 403 and
    queues nothing otherwise. Hence a matching query parameter is
    always accepted, a matching header is accepted when there is no
    query parameter, and two differing credentials are always refused. *)
Theorem auth_gate (control_token : string) (req : Control.request) (queue : list Z) :
  Control.path req = "/run_immediate" ->
  control_token <> "" ->
  let presented := Control.presented_token req in
  let by_query := Control.qs_first (Control.query req) "token" in
  let by_header := Control.header_get (Control.headers req) "X-Token" in
  (presented = Some control_token ->
     Control.do_GET control_token req queue = Control.do_GET "" req queue) /\
  (presented <> Some control_token ->
     Control.do_GET control_token req queue
     = (Control.Response 403 (Control.BodyError "forbidden"), queue)) /\
  (by_query = Some control_token -> presented = Some control_token) /\
  (by_query = None -> by_header = Some control_token -> presented = Some control_token) /\
  (by_query <> Some control_token -> by_header <> Some control_token ->
     presented <> Some control_token).
Proof.
  intros Hp Hne presented by_query by_header.
  pose proof (truthy_nonempty _ Hne) as Ht.
  assert (Hpath : negb (String.eqb (Control.path req) "/run_immediate"
                        || String.eqb (Control.path req) "/health") = false
                  /\ String.eqb (Control.path req) "/health" = false).
  { rewrite Hp. split; reflexivity. }
  destruct Hpath as [Hp1 Hp2].
  repeat split.
  - intros Heq. unfold Control.do_GET. rewrite Hp1, Hp2, Ht.
    fold presented. rewrite Heq.
    rewrite bool_decide_eq_true_2 by reflexivity. reflexivity.
  - intros Hd. unfold Control.do_GET. rewrite Hp1, Hp2, Ht.
    fold presented. rewrite bool_decide_eq_false_2 by exact Hd. reflexivity.
  - intros Hq. subst presented. unfold Control.presented_token.
    fold by_query. rewrite Hq. cbn [Control.opt_or_opt]. rewrite Ht. reflexivity.
  - intros Hq Hh. subst presented. unfold Control.presented_token.
    fold by_query by_header. rewrite Hq. exact Hh.
  - intros Hq Hh. subst presented. unfold Control.presented_token.
    fold by_query by_header.
    destruct by_query as [s|]; cbn [Control.opt_or_opt]; [|exact Hh].
    destruct (PyStr.truthy s); assumption.
Qed.

Lemma auth_gate_witness :
  Control.do_GET "s3cret"
    (Control.Request "/run_immediate" [("job_id", "42")] [("x-token", "s3cret")]) [7]
  = (Control.Response 200 (Control.BodyQueued 42), [7; 42]).
Proof.
  pose proof (auth_gate "s3cret"
                (Control.Request "/run_immediate" [("job_id", "42")] [("x-token", "s3cret")])
                [7] eq_refl ltac:(discriminate)) as (Hsame & _ & _ & _ & _).
  rewrite Hsame; reflexivity.
Defined.

(** ** The default configuration *)

(** C9, as stated, fails on the value: the default that [load_config]
    writes when the file is absent has the control token [CHANGE_ME],
    not the empty string. *)
Lemma written_default_token_is_not_empty :
  match Config.load_config "config.json" Config.Absent with
  | (Config.Document written, _, _) =>
      Config.lookup2 written "scheduler" "control_token" = Some (Config.JStr "CHANGE_ME")
      /\ Config.lookup2 written "scheduler" "control_token" <> Some (Config.JStr "")
  | _ => False
  end.
Proof. vm_compute. split; [reflexivity|discriminate]. Qed.

(** C9, amended. When the configuration file is absent, [load_config]
    writes the default configuration, prints one warning and returns
    that default; in it [scheduler.control_token] is the text
    [CHANGE_ME], so the token gate is on by default: a request without
    credentials is refused. *)
Theorem load_config_absent_writes_default (path : string) :
  Config.load_config path Config.Absent
  = (Config.Document Config.DEFAULT_CONFIG,
     [Config.Warn
        (String.append "[WARN] config.json not found. Created default at: " path)],
     Ok Config.DEFAULT_CONFIG) /\
  Config.lookup2 Config.DEFAULT_CONFIG "scheduler" "control_token"
  = Some (Config.JStr "CHANGE_ME") /\
  Control.do_GET (Config.ctrl_token Config.DEFAULT_CONFIG)
    (Control.Request "/run_immediate" [("job_id", "42")] []) []
  = (Control.Response 403 (Control.BodyError "forbidden"), []).
Proof. repeat split. Qed.

(** ** The store gateway: membership and frame lemmas *)

Section StoreLemmas.

Lemma update_where_id_In (j : Z) (f : row -> row) (t : Store.table) (r' : row) :
  In r' (Store.update_where_id j f t) ->
  exists r, In r t /\ r' = (if Job.id r =? j then f r else r).
Proof.
  unfold Store.update_where_id. rewrite in_map_iff.
  intros (r & <- & Hr). eauto.
Qed.

Lemma update_where_id_ids (j : Z) (f : row -> row) (t : Store.table) :
  (forall r, Job.id (f r) = Job.id r) ->
  map Job.id (Store.update_where_id j f t) = map Job.id t.
Proof.
  intros Hf. unfold Store.update_where_id. rewrite map_map.
  apply map_ext. intros r. destruct (Job.id r =? j); [apply Hf|reflexivity].
Qed.

Lemma order_insert_In (r x : row) (l : list row) :
  In x (Store.order_insert r l) -> x = r \/ In x l.
Proof.
  induction l as [|u l IH]; simpl.
  - intros [<-|[]]. now left.
  - destruct (Store.next_key u <=? Store.next_key r); simpl.
    + intros [<-|H]; [right; now left|].
      destruct (IH H) as [->|H']; [now left|right; now right].
    + intros [<-|H]; [now left|now right].
Qed.

Lemma order_by_next_run_at_In (x : row) (l : list row) :
  In x (Store.order_by_next_run_at l) -> In x l.
Proof.
  unfold Store.order_by_next_run_at.
  assert (G : forall acc, In x (fold_left (fun acc r => Store.order_insert r acc) l acc)
                          -> In x acc \/ In x l).
  { induction l as [|r l IH]; intros acc; simpl; [now left|].
    intros H. destruct (IH _ H) as [H'|H']; [|right; now right].
    destruct (order_insert_In _ _ _ H') as [->|H'']; [right; now left|now left]. }
  intros H. destruct (G [] H) as [[]|H']; exact H'.
Qed.

Lemma fetch_due_jobs_In (h : Host) (utc : Z) (t : Store.table) (batch : Z) (r : row) :
  In r (fetch_due_jobs h utc t batch) ->
  In r t /\ Store.due (mysql_now h utc) r = true.
Proof.
  unfold fetch_due_jobs. intros H.
  apply list_elem_of_In, subseteq_take, list_elem_of_In in H.
  apply order_by_next_run_at_In, filter_In in H. exact H.
Qed.

(** A row the pausing statement has touched is never due again. *)
Lemma paused_not_fetched (h : Host) (utc : Z) (t : Store.table) (j : Z)
    (utc' batch : Z) (r : row) :
  In r (fetch_due_jobs h utc' (Store.update_where_id j (pause_row h utc) t) batch) ->
  Job.id r <> j.
Proof.
  intros H. apply fetch_due_jobs_In in H as [Hin Hdue].
  apply update_where_id_In in Hin as (r0 & _ & ->).
  destruct (Job.id r0 =? j) eqn:E.
  - discriminate Hdue.
  - now apply Z.eqb_neq.
Qed.

End StoreLemmas.

(** ** The dispatch procedure when no next instant exists *)

Section DispatchLemmas.

Variable h : Host.
Variable send : nat -> row -> send_result.
Variable default_tz : string.

(** If the resolver finds no next instant for the re-read row, a
    dispatch that succeeds, or fails with no retry configured, runs
    the pausing statement and nothing else on the table. *)
Lemma execute_one_without_next (utc : Z) (job : row) (immediate : bool) (st : state) :
  compute_next_run_at h utc (reread st job) default_tz = Ok None ->
  send_ok send st job = true \/ default 0 (Job.max_retries job) <= 0 ->
  exists st',
    _execute_one h send default_tz utc job immediate st = (st', None) /\
    store st' = Store.update_where_id (Job.id job) (pause_row h utc) (store st).
Proof.
  intros Hnone Hcase. unfold _execute_one, send_ok, reread in *.
  destruct (send (calls st) job) as [[ok code] detail]; cbn [fst] in Hcase.
  destruct ok.
  - cbn [store emit]. rewrite Hnone.
    rewrite (bool_decide_eq_true_2 (None = None)) by reflexivity.
    destruct (String.eqb _ _); cbn [negb andb];
      (eexists; split; [reflexivity|reflexivity]).
  - destruct Hcase as [Hc|Hc]; [discriminate|].
    unfold update_job_after_failure.
    assert ((0 <? default 0 (Job.max_retries job)) = false) as ->
      by (apply Z.ltb_ge; exact Hc).
    rewrite andb_false_r. cbn [store emit with_store]. rewrite Hnone.
    rewrite (bool_decide_eq_true_2 (None = None)) by reflexivity.
    eexists; split; [reflexivity|]. reflexivity.
Qed.

End DispatchLemmas.

(** ** Rows for which the resolver has nothing to return *)

Lemma resolver_none_when_times_empty (h : Host) (utc : Z) (job : row) (default_tz : string) :
  recurring job -> times_empty job ->
  compute_next_run_at h utc job default_tz = Ok None.
Proof.
  intros Hr He. unfold compute_next_run_at. rewrite He. cbn [rbind].
  destruct Hr as [-> | ->]; reflexivity.
Qed.

Lemma resolver_none_when_no_weekday (h : Host) (utc : Z) (job : row) (default_tz : string) :
  no_weekday job -> compute_next_run_at h utc job default_tz = Ok None.
Proof.
  intros (Hs & (times & Ht) & Hd). unfold compute_next_run_at.
  rewrite Ht, Hs, Hd. cbn [rbind].
  change (String.eqb "WEEKLY" "ONCE") with false.
  change (String.eqb "WEEKLY" "DAILY") with false.
  change (String.eqb "WEEKLY" "WEEKLY") with true.
  cbv iota. destruct times; reflexivity.
Qed.

Lemma resolver_none_when_type_unknown (h : Host) (utc : Z) (job : row) (default_tz : string)
    (times : list dtime) :
  unknown_type job -> _parse_times job = Ok times ->
  compute_next_run_at h utc job default_tz = Ok None.
Proof.
  intros (Ho & Hd & Hw) Ht. unfold compute_next_run_at.
  rewrite Ht. cbn [rbind].
  apply String.eqb_neq in Ho, Hd, Hw. rewrite Ho, Hd, Hw.
  destruct times; reflexivity.
Qed.

(** Blank [times_of_day] and [time_of_day] cells give the empty times
    list. *)
Lemma times_empty_when_blank (job : row) :
  PyStr.strip (default "" (Job.times_of_day job)) = "" ->
  tod_present (Job.time_of_day job) = false ->
  times_empty job.
Proof.
  intros Hcsv Htod. unfold times_empty, _parse_times.
  destruct (Job.times_of_day job) as [csv|]; cbv [default from_option id] in Hcsv;
    [rewrite Hcsv|]; cbn [PyStr.truthy rbind]; rewrite Htod; reflexivity.
Qed.

(** ** No hot loop for rows without a next instant *)

(** C2, as stated, fails in two ways. By design: the DAILY row with an
    empty times list and [max_retries = 2], dispatched with a failing
    send, is not paused but rescheduled 30 s later, and the poll cycle
    30 s later fetches it again. By the missing handler around the time
    parser: for the DAILY row with the times text [8am] the resolver
    raises [ValueError], the scheduled pass is left after the send, the
    row stays as it was, and the next cycle sends it again. *)
Lemma malformed_job_not_always_paused :
  let cycle := fun send utc st =>
    poll_cycle Fixture.host_taipei send "Asia/Taipei" 20 utc st in
  let retried :=
    cycle Fixture.fail_send Fixture.noon (Fixture.fresh_state [Fixture.daily_no_times] []) in
  let looped :=
    cycle Fixture.ok_send (Fixture.noon_plus 2)
      (cycle Fixture.ok_send Fixture.noon
         (Fixture.fresh_state [Fixture.daily_bad_times] [])) in
  (times_empty Fixture.daily_no_times /\
   compute_next_run_at Fixture.host_taipei Fixture.noon Fixture.daily_no_times "Asia/Taipei"
     = Ok None /\
   trace retried
     = [Sent false 3; Failed 3; RetryScheduled 3 (Datetime.at_ 2030 1 1 12 0 30)] /\
   (Job.enabled <$> fetch_job_by_id (store retried) 3) = Some true /\
   map Job.id (fetch_due_jobs Fixture.host_taipei (Fixture.noon_plus 30) (store retried) 20)
     = [3]) /\
  (compute_next_run_at Fixture.host_taipei Fixture.noon Fixture.daily_bad_times "Asia/Taipei"
     = Raise ValueError /\
   trace looped
     = [Sent false 4; Success 4; SchedulerError ValueError;
        Sent false 4; Success 4; SchedulerError ValueError] /\
   store looped = [Fixture.daily_bad_times]).
Proof. vm_compute. repeat split. Qed.

(** C2, amended. For every recurring (DAILY or WEEKLY) row whose times
    list is empty, or (WEEKLY) whose times parse and whose weekdays hold
    no recognised token, the resolver returns none without raising; a
    dispatch of the row that succeeds, or that fails with no retry
    configured, then runs the pausing statement: [enabled] becomes
    false, [last_run_at] is set, [next_run_at] and the other cells keep
    their values, and no later query for due rows returns the row. *)
Theorem malformed_recurring_job_is_paused
    (h : Host) (send : nat -> row -> send_result) (default_tz : string)
    (utc : Z) (job : row) (immediate : bool) (st : state) :
  recurring (reread st job) ->
  times_empty (reread st job) \/ no_weekday (reread st job) ->
  send_ok send st job = true \/ default 0 (Job.max_retries job) <= 0 ->
  compute_next_run_at h utc (reread st job) default_tz = Ok None /\
  exists st',
    _execute_one h send default_tz utc job immediate st = (st', None) /\
    store st' = Store.update_where_id (Job.id job) (pause_row h utc) (store st) /\
    forall utc' batch r,
      In r (fetch_due_jobs h utc' (store st') batch) -> Job.id r <> Job.id job.
Proof.
  intros Hrec Hmal Hcase.
  assert (Hnone : compute_next_run_at h utc (reread st job) default_tz = Ok None).
  { destruct Hmal as [He|Hw].
    - now apply resolver_none_when_times_empty.
    - now apply resolver_none_when_no_weekday. }
  split; [exact Hnone|].
  destruct (execute_one_without_next h send default_tz utc job immediate st Hnone Hcase)
    as (st' & Hrun & Hstore).
  exists st'. split; [exact Hrun|]. split; [exact Hstore|].
  intros utc' batch r Hin. rewrite Hstore in Hin.
  eapply paused_not_fetched; eassumption.
Qed.

Lemma malformed_recurring_job_is_paused_witness :
  compute_next_run_at Fixture.host_taipei Fixture.noon
    (reread (Fixture.fresh_state [Fixture.daily_no_times] []) Fixture.daily_no_times)
    "Asia/Taipei" = Ok None /\
  exists st',
    _execute_one Fixture.host_taipei Fixture.ok_send "Asia/Taipei" Fixture.noon
      Fixture.daily_no_times false (Fixture.fresh_state [Fixture.daily_no_times] [])
    = (st', None) /\
    store st'
    = Store.update_where_id (Job.id Fixture.daily_no_times)
        (pause_row Fixture.host_taipei Fixture.noon)
        (store (Fixture.fresh_state [Fixture.daily_no_times] [])) /\
    forall utc' batch r,
      In r (fetch_due_jobs Fixture.host_taipei utc' (store st') batch) ->
      Job.id r <> Job.id Fixture.daily_no_times.
Proof.
  apply (malformed_recurring_job_is_paused Fixture.host_taipei Fixture.ok_send
           "Asia/Taipei" Fixture.noon Fixture.daily_no_times false
           (Fixture.fresh_state [Fixture.daily_no_times] [])).
  - left. reflexivity.
  - left. reflexivity.
  - left. reflexivity.
Defined.

(** ** Rows of an unknown schedule type *)

(** C10, as stated, fails in two ways. By design: the MONTHLY row with
    [max_retries = 2], dispatched with a failing send, is rescheduled
    30 s later and stays enabled. By the missing handler around the
    time parser, which runs before the schedule type is looked at: for
    the MONTHLY row with the times text [8am] the resolver raises
    [ValueError] instead of returning none, and the row is not paused. *)
Lemma unknown_type_not_always_paused :
  let cycle := fun send utc st =>
    poll_cycle Fixture.host_taipei send "Asia/Taipei" 20 utc st in
  let retried :=
    cycle Fixture.fail_send Fixture.noon (Fixture.fresh_state [Fixture.monthly] []) in
  let raised :=
    cycle Fixture.ok_send Fixture.noon
      (Fixture.fresh_state [Fixture.monthly_bad_times] []) in
  (unknown_type Fixture.monthly /\
   trace retried
     = [Sent false 11; Failed 11; RetryScheduled 11 (Datetime.at_ 2030 1 1 12 0 30)] /\
   (Job.enabled <$> fetch_job_by_id (store retried) 11) = Some true) /\
  (unknown_type Fixture.monthly_bad_times /\
   compute_next_run_at Fixture.host_taipei Fixture.noon Fixture.monthly_bad_times
     "Asia/Taipei" = Raise ValueError /\
   trace raised = [Sent false 12; Success 12; SchedulerError ValueError] /\
   store raised = [Fixture.monthly_bad_times]).
Proof.
  vm_compute. repeat split; discriminate.
Qed.

(** C10, amended. For every row whose schedule type, trimmed and in
    upper case, is none of ONCE, DAILY, WEEKLY (an empty or NULL type
    included) and whose time cells parse, the resolver returns none
    without raising; a dispatch of the row that succeeds, or that fails
    with no retry configured, then pauses it ([enabled] false), and no
    later query for due rows returns it. *)
Theorem unknown_type_job_is_paused
    (h : Host) (send : nat -> row -> send_result) (default_tz : string)
    (utc : Z) (job : row) (immediate : bool) (st : state) (times : list dtime) :
  unknown_type (reread st job) ->
  _parse_times (reread st job) = Ok times ->
  send_ok send st job = true \/ default 0 (Job.max_retries job) <= 0 ->
  compute_next_run_at h utc (reread st job) default_tz = Ok None /\
  exists st',
    _execute_one h send default_tz utc job immediate st = (st', None) /\
    store st' = Store.update_where_id (Job.id job) (pause_row h utc) (store st) /\
    (forall r, In r (store st') -> Job.id r = Job.id job -> Job.enabled r = false) /\
    forall utc' batch r,
      In r (fetch_due_jobs h utc' (store st') batch) -> Job.id r <> Job.id job.
Proof.
  intros Hu Ht Hcase.
  pose proof (resolver_none_when_type_unknown h utc _ default_tz times Hu Ht) as Hnone.
  split; [exact Hnone|].
  destruct (execute_one_without_next h send default_tz utc job immediate st Hnone Hcase)
    as (st' & Hrun & Hstore).
  exists st'. split; [exact Hrun|]. split; [exact Hstore|]. split.
  - intros r Hin Hid. rewrite Hstore in Hin.
    apply update_where_id_In in Hin as (r0 & _ & ->).
    destruct (Job.id r0 =? Job.id job) eqn:E; [reflexivity|].
    apply Z.eqb_neq in E. contradiction.
  - intros utc' batch r Hin. rewrite Hstore in Hin.
    eapply paused_not_fetched; eassumption.
Qed.

Lemma unknown_type_job_is_paused_witness :
  compute_next_run_at Fixture.host_taipei Fixture.noon
    (reread (Fixture.fresh_state [Fixture.monthly] []) Fixture.monthly) "Asia/Taipei"
  = Ok None /\
  exists st',
    _execute_one Fixture.host_taipei Fixture.ok_send "Asia/Taipei" Fixture.noon
      Fixture.monthly true (Fixture.fresh_state [Fixture.monthly] [])
    = (st', None) /\
    store st'
    = Store.update_where_id (Job.id Fixture.monthly)
        (pause_row Fixture.host_taipei Fixture.noon)
        (store (Fixture.fresh_state [Fixture.monthly] [])) /\
    (forall r, In r (store st') -> Job.id r = Job.id Fixture.monthly ->
               Job.enabled r = false) /\
    forall utc' batch r,
      In r (fetch_due_jobs Fixture.host_taipei utc' (store st') batch) ->
      Job.id r <> Job.id Fixture.monthly.
Proof.
  apply (unknown_type_job_is_paused Fixture.host_taipei Fixture.ok_send "Asia/Taipei"
           Fixture.noon Fixture.monthly true (Fixture.fresh_state [Fixture.monthly] [])
           [Dtime 8 0 0 0]).
  - vm_compute. repeat split; discriminate.
  - reflexivity.
  - left. reflexivity.
Defined.

(** ** ONCE rows after a successful dispatch *)

(** When the resolver returns for the re-read ONCE row, a successful
    dispatch runs the pausing statement and nothing else: [enabled]
    false, [last_run_at] set, every other cell as it was. *)
Lemma once_sunset_when_resolver_returns
    (h : Host) (send : nat -> row -> send_result) (default_tz : string)
    (utc : Z) (job : row) (immediate : bool) (st : state) (next_run : option Z) :
  stype_of (reread st job) = "ONCE" ->
  send_ok send st job = true ->
  compute_next_run_at h utc (reread st job) default_tz = Ok next_run ->
  exists st',
    _execute_one h send default_tz utc job immediate st = (st', None) /\
    store st' = Store.update_where_id (Job.id job) (pause_row h utc) (store st).
Proof.
  intros Hs Hok Hres. unfold _execute_one, send_ok, reread in *.
  destruct (send (calls st) job) as [[ok code] detail]; cbn [fst] in Hok. subst ok.
  cbn [store emit]. rewrite Hres, Hs.
  change (String.eqb "ONCE" "ONCE") with true. cbn [negb andb].
  eexists; split; reflexivity.
Qed.

Lemma pause_row_frame (h : Host) (utc : Z) (r : row) :
  pause_row h utc r
  = Job.Row (Job.id r) (Job.name r) false (Job.schedule_type r) (Job.run_at r)
      (Job.times_of_day r) (Job.time_of_day r) (Job.days_of_week r) (Job.timezone r)
      (Job.message r) (Job.max_retries r) (Job.retry_backoff_sec r)
      (Job.next_run_at r) (Some (mysql_now h utc)).
Proof. reflexivity. Qed.

(** C8, the code at the failing input. The ONCE row whose times text is
    [8am] is sent successfully, but [compute_next_run_at] parses the
    times before it looks at the schedule type and raises [ValueError]:
    [update_job_after_success] is never reached, the row stays enabled
    with its old [last_run_at], and the next cycle sends it again. *)
Theorem once_job_with_unparseable_times_stays_enabled :
  let cycle := fun utc st =>
    poll_cycle Fixture.host_taipei Fixture.ok_send "Asia/Taipei" 20 utc st in
  let first := cycle Fixture.noon (Fixture.fresh_state [Fixture.once_bad_times] []) in
  let second := cycle (Fixture.noon_plus 2) first in
  stype_of Fixture.once_bad_times = "ONCE" /\
  compute_next_run_at Fixture.host_taipei Fixture.noon Fixture.once_bad_times "Asia/Taipei"
    = Raise ValueError /\
  trace first = [Sent false 9; Success 9; SchedulerError ValueError] /\
  store first = [Fixture.once_bad_times] /\
  (Job.enabled <$> fetch_job_by_id (store first) 9) = Some true /\
  trace second
    = [Sent false 9; Success 9; SchedulerError ValueError;
       Sent false 9; Success 9; SchedulerError ValueError].
Proof. vm_compute. repeat split. Qed.

(** ** Failed dispatches with retries configured *)

(** C5, as stated, fails. The row of scenario 4 ([max_retries = 2],
    30 s) fails three times in a row, at 12:00:00, 12:00:30 and
    12:01:00: the third failure, with both retries used up, is again
    answered by a retry 30 s later (12:01:30) and not by the next
    instant of the recurrence (08:00 of the next day). And for a row
    whose [retry_backoff_sec] is 0 the retry is set 60 s, not 0 s,
    after now. *)
Lemma retries_are_never_used_up :
  let cycle := fun utc st =>
    poll_cycle Fixture.host_taipei Fixture.fail_send "Asia/Taipei" 20 utc st in
  let third :=
    cycle (Fixture.noon_plus 60)
      (cycle (Fixture.noon_plus 30)
         (cycle Fixture.noon (Fixture.fresh_state [Fixture.flaky] []))) in
  (trace third
     = [Sent false 5; Failed 5; RetryScheduled 5 (Datetime.at_ 2030 1 1 12 0 30);
        Sent false 5; Failed 5; RetryScheduled 5 (Datetime.at_ 2030 1 1 12 1 0);
        Sent false 5; Failed 5; RetryScheduled 5 (Datetime.at_ 2030 1 1 12 1 30)] /\
   (Job.next_run_at <$> fetch_job_by_id (store third) 5)
     = Some (Some (Datetime.at_ 2030 1 1 12 1 30)) /\
   compute_next_run_at Fixture.host_taipei (Fixture.noon_plus 60) Fixture.flaky "Asia/Taipei"
     = Ok (Some (Datetime.at_ 2030 1 2 8 0 0))) /\
  (Job.retry_backoff_sec Fixture.eager = Some 0 /\
   trace (cycle Fixture.noon (Fixture.fresh_state [Fixture.eager] []))
     = [Sent false 6; Failed 6; RetryScheduled 6 (Datetime.at_ 2030 1 1 12 1 0)]).
Proof. vm_compute. repeat split. Qed.

Lemma retry_row_enabled (h : Host) (utc retry_at job_id : Z) (t : Store.table) :
  map Job.enabled (Store.update_where_id job_id (retry_row h utc retry_at) t)
  = map Job.enabled t.
Proof.
  unfold Store.update_where_id. rewrite map_map. apply map_ext.
  intros r. destruct (Job.id r =? job_id); reflexivity.
Qed.

(** C5, amended. Every failed dispatch of a job with [max_retries > 0],
    however many failures came before (no count of attempts is kept),
    runs one statement on the rows of that id: [next_run_at] becomes
    the machine's wall clock plus the delay, which is
    [retry_backoff_sec], or 60 s when that cell is NULL or 0, and
    [last_run_at] becomes the store's [NOW()]; [enabled] keeps its
    value in every row and the resolver is not consulted. The
    recurrence is consulted again by a successful dispatch: the table
    then is what [update_job_after_success] makes of it with the
    resolver's answer for the re-read row. *)
Theorem failed_dispatch_with_retries_reschedules
    (h : Host) (send : nat -> row -> send_result) (default_tz : string)
    (utc : Z) (job : row) (immediate : bool) (st : state) :
  (send_ok send st job = false ->
   0 < default 0 (Job.max_retries job) ->
   let retry_at := Datetime.add_seconds (local_now h utc) (backoff_of job) in
   exists st',
     _execute_one h send default_tz utc job immediate st = (st', None) /\
     store st'
     = Store.update_where_id (Job.id job) (retry_row h utc retry_at) (store st) /\
     map Job.enabled (store st') = map Job.enabled (store st) /\
     trace st'
     = (trace st ++ [Sent immediate (Job.id job); Failed (Job.id job);
                     RetryScheduled (Job.id job) retry_at])%list) /\
  (forall next_run,
     send_ok send st job = true ->
     compute_next_run_at h utc (reread st job) default_tz = Ok next_run ->
     exists st',
       _execute_one h send default_tz utc job immediate st = (st', None) /\
       store st'
       = update_job_after_success h utc (store st) (Job.id job) next_run
           (String.eqb (stype_of (reread st job)) "ONCE")).
Proof.
  split.
  - intros Hfail Hpos retry_at. unfold _execute_one, send_ok in *.
    destruct (send (calls st) job) as [[ok code] detail]; cbn [fst] in Hfail. subst ok.
    unfold update_job_after_failure. fold (backoff_of job).
    assert ((0 <? default 0 (Job.max_retries job)) = true) as -> by (now apply Z.ltb_lt).
    assert ((default 0 (Job.max_retries job) =? 0) = false) as ->
      by (apply Z.eqb_neq; lia).
    cbn [negb andb].
    assert ((if backoff_of job =? 0 then 60 else backoff_of job) = backoff_of job) as ->.
    { unfold backoff_of. destruct (Job.retry_backoff_sec job) as [b|]; [|reflexivity].
      destruct (b =? 0) eqn:E; [reflexivity|]. rewrite E. reflexivity. }
    fold retry_at. eexists. split; [reflexivity|].
    cbn [store emit with_store trace].
    split; [reflexivity|]. split; [apply retry_row_enabled|].
    rewrite <- !app_assoc. reflexivity.
  - intros next_run Hok Hres. unfold _execute_one, send_ok, reread in *.
    destruct (send (calls st) job) as [[ok code] detail]; cbn [fst] in Hok. subst ok.
    cbn [store emit]. rewrite Hres.
    destruct (negb _ && _); eexists; split; reflexivity.
Qed.

Lemma failed_dispatch_with_retries_reschedules_witness :
  (exists st',
     _execute_one Fixture.host_taipei Fixture.fail_send "Asia/Taipei" Fixture.noon
       Fixture.flaky false (Fixture.fresh_state [Fixture.flaky] [])
     = (st', None) /\
     (Job.next_run_at <$> fetch_job_by_id (store st') 5)
     = Some (Some (Datetime.at_ 2030 1 1 12 0 30))) /\
  (exists st',
     _execute_one Fixture.host_taipei Fixture.ok_send "Asia/Taipei" Fixture.noon
       Fixture.flaky false (Fixture.fresh_state [Fixture.flaky] [])
     = (st', None) /\
     (Job.next_run_at <$> fetch_job_by_id (store st') 5)
     = Some (Some (Datetime.at_ 2030 1 2 8 0 0))).
Proof.
  pose proof (failed_dispatch_with_retries_reschedules Fixture.host_taipei
                Fixture.fail_send "Asia/Taipei" Fixture.noon Fixture.flaky false
                (Fixture.fresh_state [Fixture.flaky] [])) as [Hfail _].
  pose proof (failed_dispatch_with_retries_reschedules Fixture.host_taipei
                Fixture.ok_send "Asia/Taipei" Fixture.noon Fixture.flaky false
                (Fixture.fresh_state [Fixture.flaky] [])) as [_ Hok].
  split.
  - destruct (Hfail eq_refl eq_refl) as (st' & Hrun & Hstore & _).
    exists st'. split; [exact Hrun|]. rewrite Hstore. vm_compute. reflexivity.
  - destruct (Hok (Some (Datetime.at_ 2030 1 2 8 0 0)) eq_refl
                ltac:(vm_compute; reflexivity)) as (st' & Hrun & Hstore).
    exists st'. split; [exact Hrun|]. rewrite Hstore. vm_compute. reflexivity.
Defined.

(** ** The immediate queue and the scheduled pass in one cycle *)



Lemma sends_app (l1 l2 : list event) : sends (l1 ++ l2) = (sends l1 ++ sends l2)%list.
Proof. apply omap_app. Qed.


Lemma update_job_after_success_ids (h : Host) (utc : Z) (t : Store.table) (j : Z)
    (n : option Z) (d : bool) :
  map Job.id (update_job_after_success h utc t j n d) = map Job.id t.
Proof.
  unfold update_job_after_success.
  destruct d; [|destruct n]; apply update_where_id_ids; reflexivity.
Qed.

Lemma update_job_after_failure_ids (h : Host) (utc : Z) (t : Store.table) (j m b : Z) :
  map Job.id (fst (update_job_after_failure h utc t j m b)) = map Job.id t.
Proof.
  unfold update_job_after_failure.
  destruct (negb _ && _); cbn [fst]; [|reflexivity].
  apply update_where_id_ids; reflexivity.
Qed.

Section Effects.
Variable h : Host.
Variable send : nat -> row -> send_result.
Variable default_tz : string.

Lemma execute_one_effects (utc : Z) (job : row) (immediate : bool) (st : state) :
  let st' := fst (_execute_one h send default_tz utc job immediate st) in
  IMMEDIATE_QUEUE st' = IMMEDIATE_QUEUE st /\
  INFLIGHT st' = INFLIGHT st /\
  map Job.id (store st') = map Job.id (store st) /\
  exists evs,
    trace st' = (trace st ++ Sent immediate (Job.id job) :: evs)%list /\
    forallb quiet evs = true.
Proof.
  unfold _execute_one.
  destruct (send (calls st) job) as [[ok code] detail].
  destruct ok.
  - destruct (compute_next_run_at _ _ _ _) as [next_run|e].
    + destruct (negb _ && _); cbn [fst emit with_store IMMEDIATE_QUEUE INFLIGHT store trace];
        (split; [reflexivity|]; split; [reflexivity|];
         split; [apply update_job_after_success_ids|];
         eexists; split; [rewrite <- !app_assoc; reflexivity|reflexivity]).
    + cbn [fst emit with_store IMMEDIATE_QUEUE INFLIGHT store trace].
      split; [reflexivity|]; split; [reflexivity|]; split; [reflexivity|].
      eexists; split; [rewrite <- !app_assoc; reflexivity|reflexivity].
  - pose proof (update_job_after_failure_ids h utc
                  (store (emit (Failed (Job.id job)) (emit (Sent immediate (Job.id job)) st)))
                  (Job.id job) (default 0 (Job.max_retries job))
                  (match Job.retry_backoff_sec job with
                   | Some b => if b =? 0 then 60 else b
                   | None => 60
                   end)) as Hids.
    destruct (update_job_after_failure _ _ _ _ _ _) as [t [at_|]]; cbn [fst] in Hids.
    + cbn [fst emit with_store IMMEDIATE_QUEUE INFLIGHT store trace].
      split; [reflexivity|]; split; [reflexivity|]; split; [exact Hids|].
      eexists; split; [rewrite <- !app_assoc; reflexivity|reflexivity].
    + cbn [emit with_store store] in *.
      destruct (compute_next_run_at _ _ _ _) as [next_run|e].
      * destruct (bool_decide _);
          cbn [fst emit with_store IMMEDIATE_QUEUE INFLIGHT store trace];
          (split; [reflexivity|]; split; [reflexivity|];
           split; [rewrite update_job_after_success_ids; exact Hids|];
           eexists; split; [rewrite <- !app_assoc; reflexivity|reflexivity]).
      * cbn [fst emit with_store IMMEDIATE_QUEUE INFLIGHT store trace].
        split; [reflexivity|]; split; [reflexivity|]; split; [exact Hids|].
        eexists; split; [rewrite <- !app_assoc; reflexivity|reflexivity].
Qed.
End Effects.

Section Cycle.
Variable h : Host.
Variable send : nat -> row -> send_result.
Variable default_tz : string.





End Cycle.


(** * Further properties *)

(** ** The times list *)

Section TimeKeys.

Lemma key_eqb_eq (a b : Z * Z * Z) : key_eqb a b = true <-> a = b.
Proof.
  destruct a as [[h1 m1] s1], b as [[h2 m2] s2]. unfold key_eqb.
  rewrite !andb_true_iff, !Z.eqb_eq. split.
  - intros [[-> ->] ->]. reflexivity.
  - intros [= -> -> ->]. auto.
Qed.

Lemma key_leb_true (a b : Z * Z * Z) : key_leb a b = true -> key_lt a b \/ a = b.
Proof.
  destruct a as [[h1 m1] s1], b as [[h2 m2] s2]. unfold key_leb, key_lt.
  rewrite orb_true_iff, !andb_true_iff, orb_true_iff, andb_true_iff,
    !Z.ltb_lt, !Z.eqb_eq, Z.leb_le.
  intros [H|[-> [H|[-> H]]]]; [left; lia|left; lia|].
  destruct (Z.eq_dec s1 s2) as [->|]; [right; reflexivity|left; lia].
Qed.

Lemma key_leb_false (a b : Z * Z * Z) : key_leb a b = false -> key_lt b a.
Proof.
  destruct a as [[h1 m1] s1], b as [[h2 m2] s2]. unfold key_leb, key_lt.
  rewrite orb_false_iff, !andb_false_iff, orb_false_iff, andb_false_iff,
    !Z.ltb_ge, !Z.eqb_neq, Z.leb_gt.
  lia.
Qed.

Lemma key_lt_trans (a b c : Z * Z * Z) : key_lt a b -> key_lt b c -> key_lt a c.
Proof.
  destruct a as [[h1 m1] s1], b as [[h2 m2] s2], c as [[h3 m3] s3].
  unfold key_lt. lia.
Qed.

Lemma key_lt_irrefl (a : Z * Z * Z) : ~ key_lt a a.
Proof. destruct a as [[h1 m1] s1]. unfold key_lt. lia. Qed.

End TimeKeys.

Section SortTimes.

Lemma sort_insert_In (t x : dtime) (l : list dtime) :
  In x (sort_insert t l) <-> x = t \/ In x l.
Proof.
  induction l as [|u l IH]; cbn [sort_insert In]; [intuition congruence|].
  destruct (key_leb (time_key u) (time_key t)); cbn [In]; rewrite ?IH; intuition congruence.
Qed.

Lemma sort_insert_sorted (t : dtime) (l : list dtime) :
  StronglySorted time_lt l ->
  ~ In (time_key t) (map time_key l) ->
  StronglySorted time_lt (sort_insert t l).
Proof.
  induction l as [|u l IH]; intros Hs Hn; cbn [sort_insert].
  - constructor; constructor.
  - apply StronglySorted_inv in Hs as [Hs Hu].
    cbn [map In] in Hn.
    destruct (key_leb (time_key u) (time_key t)) eqn:E.
    + constructor; [apply IH; tauto|].
      apply List.Forall_forall. intros x Hx. apply sort_insert_In in Hx as [->|Hx].
      * apply key_leb_true in E as [E|E]; [exact E|]. exfalso. apply Hn. now left.
      * rewrite List.Forall_forall in Hu. now apply Hu.
    + apply key_leb_false in E.
      constructor; [constructor; assumption|].
      constructor; [exact E|].
      rewrite List.Forall_forall in Hu |- *. intros x Hx.
      eapply key_lt_trans; [exact E|]. now apply Hu.
Qed.

Lemma sort_fold_In (l acc : list dtime) (x : dtime) :
  In x (fold_left (fun acc t => sort_insert t acc) l acc) <-> In x acc \/ In x l.
Proof.
  revert acc. induction l as [|t l IH]; intros acc; cbn [fold_left In]; [tauto|].
  rewrite IH, sort_insert_In. intuition congruence.
Qed.

Lemma sort_fold_sorted (l acc : list dtime) :
  StronglySorted time_lt acc ->
  List.NoDup (map time_key (acc ++ l)) ->
  StronglySorted time_lt (fold_left (fun acc t => sort_insert t acc) l acc).
Proof.
  revert acc. induction l as [|t l IH]; intros acc Hs Hn; cbn [fold_left]; [exact Hs|].
  rewrite map_app in Hn. cbn [map] in Hn.
  apply IH.
  - apply sort_insert_sorted; [exact Hs|].
    apply List.NoDup_remove_2 in Hn. rewrite in_app_iff in Hn. tauto.
  - rewrite map_app.
    eapply Permutation_NoDup; [|exact Hn].
    clear IH.
    assert (P : Permutation (time_key t :: map time_key acc) (map time_key (sort_insert t acc))).
    { clear. induction acc as [|u acc IH]; cbn [sort_insert map]; [reflexivity|].
      destruct (key_leb _ _); cbn [map]; [|reflexivity].
      rewrite perm_swap. now constructor. }
    rewrite <- P. symmetry. apply (Permutation_middle (map time_key acc)).
Qed.

Lemma sort_times_sorted (l : list dtime) :
  List.NoDup (map time_key l) -> StronglySorted time_lt (sort_times l).
Proof. intros H. apply sort_fold_sorted; [constructor|exact H]. Qed.

Lemma sort_times_In (l : list dtime) (x : dtime) : In x (sort_times l) <-> In x l.
Proof. unfold sort_times. rewrite sort_fold_In. cbn [In]. tauto. Qed.

End SortTimes.

Section UniqueTimes.

Lemma dict_set_keys (k : Z * Z * Z) (v : dtime) (d : list (Z * Z * Z * dtime))
    (k' : Z * Z * Z) :
  In k' (map fst (dict_set k v d)) <-> k' = k \/ In k' (map fst d).
Proof.
  induction d as [|[k0 v0] d IH]; cbn [dict_set map fst In]; [intuition congruence|].
  destruct (key_eqb k k0) eqn:E; cbn [map fst In].
  - apply key_eqb_eq in E as <-. intuition congruence.
  - rewrite IH. intuition congruence.
Qed.

Lemma dict_set_nodup (k : Z * Z * Z) (v : dtime) (d : list (Z * Z * Z * dtime)) :
  List.NoDup (map fst d) -> List.NoDup (map fst (dict_set k v d)).
Proof.
  induction d as [|[k0 v0] d IH]; cbn [dict_set map fst]; intros H.
  - constructor; [intros []|constructor].
  - apply List.NoDup_cons_iff in H as [Hn Hd].
    destruct (key_eqb k k0) eqn:E; cbn [map fst].
    + apply key_eqb_eq in E as <-. now constructor.
    + constructor; [|now apply IH].
      rewrite dict_set_keys. intros [->|Hin]; [|contradiction].
      assert (key_eqb k k = true) by now apply key_eqb_eq. congruence.
Qed.

Lemma dict_set_entries (t : dtime) (d : list (Z * Z * Z * dtime)) (kv : Z * Z * Z * dtime) :
  In kv (dict_set (time_key t) t d) -> kv = (time_key t, t) \/ In kv d.
Proof.
  induction d as [|[k0 v0] d IH]; cbn [dict_set In]; [intuition congruence|].
  destruct (key_eqb (time_key t) k0); cbn [In]; [intuition congruence|].
  intros [H|H]; [right; now left|]. destruct (IH H); [now left|right; now right].
Qed.

(** The dict comprehension of line 215, started from [d]. *)
Lemma uniq_fold (out : list dtime) (d : list (Z * Z * Z * dtime)) :
  List.NoDup (map fst d) ->
  (forall kv, In kv d -> fst kv = time_key (snd kv)) ->
  let uniq := fold_left (fun d t => dict_set (time_key t) t d) out d in
  List.NoDup (map fst uniq) /\
  (forall kv, In kv uniq -> fst kv = time_key (snd kv) /\ (In kv d \/ In (snd kv) out)) /\
  (forall k, In k (map fst uniq) <-> In k (map fst d) \/ In k (map time_key out)).
Proof.
  revert d. induction out as [|t out IH]; intros d Hn Hc; cbn [fold_left].
  - split; [exact Hn|]. split; [intros kv H; split; [now apply Hc|now left]|].
    intros k. cbn [map In]. tauto.
  - destruct (IH (dict_set (time_key t) t d)) as (G1 & G2 & G3).
    + now apply dict_set_nodup.
    + intros kv H. apply dict_set_entries in H as [->|H]; [reflexivity|now apply Hc].
    + split; [exact G1|]. split.
      * intros kv H. destruct (G2 kv H) as [E [H'|H']]; split; try exact E.
        -- apply dict_set_entries in H' as [->|H']; [right; now left|now left].
        -- right. now right.
      * intros k. rewrite G3, dict_set_keys. cbn [map In]. intuition congruence.
Qed.

Lemma uniq_keys (d : list (Z * Z * Z * dtime)) :
  (forall kv, In kv d -> fst kv = time_key (snd kv)) ->
  map time_key (map snd d) = map fst d.
Proof.
  induction d as [|kv d IH]; intros H; cbn [map]; [reflexivity|].
  rewrite IH by (intros; apply H; now right).
  rewrite (H kv) by now left. reflexivity.
Qed.

End UniqueTimes.

Section ParsedTimes.

Lemma mk_dtime_valid (hh mm ss : Z) (t : dtime) :
  mk_dtime hh mm ss = Ok t -> valid_time t /\ microsecond t = 0.
Proof.
  unfold mk_dtime.
  destruct (_ && _) eqn:E; [|discriminate]. intros [= <-].
  rewrite !andb_true_iff, !Z.leb_le, !Z.ltb_lt in E.
  unfold valid_time. cbn. lia.
Qed.

Lemma parse_time_of_day_str_valid (x : string) (t : dtime) :
  _parse_time_of_day_str x = Ok t -> valid_time t /\ microsecond t = 0.
Proof.
  unfold _parse_time_of_day_str.
  destruct (negb _).
  - intros [= <-]. unfold valid_time. cbn. lia.
  - destruct (PyStr.split _ _) as [|hh [|mm [|ss [|? ?]]]]; try discriminate.
    destruct (py_int hh) as [h|]; cbn [rbind]; [|discriminate].
    destruct (py_int mm) as [m|]; cbn [rbind]; [|discriminate].
    destruct (py_int ss) as [s|]; cbn [rbind]; [|discriminate].
    apply mk_dtime_valid.
Qed.

Lemma parse_parts_valid (parts : list string) (ts : list dtime) :
  parse_parts parts = Ok ts -> List.Forall valid_time ts.
Proof.
  revert ts. induction parts as [|p ps IH]; intros ts; cbn [parse_parts].
  - intros [= <-]. constructor.
  - destruct (PyStr.truthy _); [|apply IH].
    destruct (_parse_time_of_day_str _) as [t|] eqn:Et; cbn [rbind]; [|discriminate].
    destruct (parse_parts ps) as [ts'|]; cbn [rbind]; [|discriminate].
    intros [= <-]. constructor; [|now apply IH].
    now apply parse_time_of_day_str_valid in Et as [? _].
Qed.

Lemma parse_parts_nonempty (parts : list string) (ts : list dtime) (part : string) :
  In part parts -> PyStr.strip part <> "" ->
  parse_parts parts = Ok ts -> ts <> [].
Proof.
  revert ts. induction parts as [|p ps IH]; intros ts Hin Hne; [destruct Hin|].
  cbn [parse_parts].
  destruct (PyStr.truthy (PyStr.strip p)) eqn:Ep.
  - destruct (_parse_time_of_day_str _); cbn [rbind]; [|discriminate].
    destruct (parse_parts ps); cbn [rbind]; [|discriminate].
    intros [= <-]. discriminate.
  - destruct Hin as [->|Hin]; [|now apply IH].
    destruct (PyStr.strip part); [congruence|discriminate].
Qed.

(** What [_parse_times] returns, in terms of the list [out] it collects
    before removing repetitions and sorting. *)
Lemma parse_times_from_out (job : row) (times : list dtime) :
  _parse_times job = Ok times ->
  exists out,
    (match Job.times_of_day job with
     | Some csv =>
         if PyStr.truthy (PyStr.strip csv)
         then parse_parts (PyStr.split "," csv)
         else Ok []
     | None => Ok []
     end = Ok out \/
     (Job.time_of_day job = TodTime (hd (Dtime 0 0 0 0) out) /\ length out = 1%nat) \/
     (exists s, _parse_time_of_day_str s = Ok (hd (Dtime 0 0 0 0) out) /\ length out = 1%nat))
    /\ times = sort_times (map snd (fold_left (fun d t => dict_set (time_key t) t d) out [])).
Proof.
  unfold _parse_times.
  destruct (match Job.times_of_day job with | Some _ => _ | None => _ end) as [out|] eqn:E;
    cbn [rbind]; [|discriminate].
  destruct out as [|t out].
  - destruct (tod_present (Job.time_of_day job)).
    + destruct (Job.time_of_day job) as [|t|s] eqn:Et; cbn [_parse_time_of_day].
      * destruct (_parse_time_of_day_str "None") as [t|] eqn:P; cbn [rbind]; [|discriminate].
        intros [= <-]. exists [t]. split; [|reflexivity]. right; right. eauto.
      * cbn [rbind]. intros [= <-]. exists [t]. split; [|reflexivity]. right; left. auto.
      * destruct (_parse_time_of_day_str s) as [t|] eqn:P; cbn [rbind]; [|discriminate].
        intros [= <-]. exists [t]. split; [|reflexivity]. right; right. eauto.
    + cbn [rbind]. intros [= <-]. exists []. split; [now left|reflexivity].
  - cbn [rbind]. intros [= <-]. exists (t :: out). split; [now left|reflexivity].
Qed.

End ParsedTimes.

Lemma parse_times_sorted (job : row) (times : list dtime) :
  _parse_times job = Ok times -> StronglySorted time_lt times.
Proof.
  intros H. apply parse_times_from_out in H as (out & _ & ->).
  destruct (uniq_fold out []) as (Hn & Hc & _); [constructor|intros ? []|].
  apply sort_times_sorted. rewrite uniq_keys; [exact Hn|].
  intros kv Hkv. now apply Hc.
Qed.

(** X1. The times list [_parse_times] returns is strictly ascending in
    (hour, minute, second): it is sorted and no time of day occurs
    twice. *)
Theorem parse_times_strictly_sorted (job : row) (times : list dtime) :
  _parse_times job = Ok times -> StronglySorted time_lt times.
Proof. exact (parse_times_sorted job times). Qed.

Lemma parse_times_strictly_sorted_witness :
  StronglySorted time_lt [Dtime 8 0 0 0; Dtime 20 0 0 0].
Proof.
  apply (parse_times_strictly_sorted
           (Fixture.job_of 1 "DAILY" RunNone (Some "20:00, 08:00:00,20:00") DaysNone
              None None)).
  reflexivity.
Defined.

Lemma parse_times_in_range (job : row) (times : list dtime) :
  _parse_times job = Ok times ->
  (forall t, Job.time_of_day job = TodTime t -> valid_time t) ->
  List.Forall valid_time times.
Proof.
  intros H Htod. apply parse_times_from_out in H as (out & Hout & ->).
  assert (Hv : List.Forall valid_time out).
  { destruct Hout as [Hcsv|[[Ht Hl]|(s & Hs & Hl)]].
    - destruct (Job.times_of_day job) as [csv|]; [|injection Hcsv as <-; constructor].
      destruct (PyStr.truthy _); [|injection Hcsv as <-; constructor].
      now apply parse_parts_valid in Hcsv.
    - destruct out as [|t [|? ?]]; try discriminate Hl.
      constructor; [|constructor]. now apply Htod.
    - destruct out as [|t [|? ?]]; try discriminate Hl.
      constructor; [|constructor]. now apply parse_time_of_day_str_valid in Hs as [? _]. }
  destruct (uniq_fold out []) as (_ & Hc & _); [constructor|intros ? []|].
  apply List.Forall_forall. intros x Hx. rewrite sort_times_In in Hx.
  apply in_map_iff in Hx as (kv & <- & Hkv).
  destruct (Hc kv Hkv) as [_ [[]|Hin]].
  rewrite List.Forall_forall in Hv. now apply Hv.
Qed.

(** X2. Every time of day that [_parse_times] reads from text is a
    valid one (hour 0-23, minute and second 0-59): with a
    [time_of_day] cell that is text or NULL, all returned times are
    valid, since a field out of range raises [ValueError]. *)
Theorem parse_times_valid (job : row) (times : list dtime) :
  _parse_times job = Ok times ->
  (forall t, Job.time_of_day job = TodTime t -> valid_time t) ->
  List.Forall valid_time times.
Proof. exact (parse_times_in_range job times). Qed.

Lemma parse_times_valid_witness :
  List.Forall valid_time [Dtime 8 0 0 0; Dtime 20 0 0 0].
Proof.
  apply (parse_times_valid Fixture.daily).
  - reflexivity.
  - intros t H. discriminate H.
Defined.

Section BlankText.

Lemma rstrip_empty_spaces (s : string) :
  PyStr.rstrip s = "" -> forall c, In c (list_ascii_of_string s) -> PyStr.is_space c = true.
Proof.
  induction s as [|c s IH]; cbn [PyStr.rstrip list_ascii_of_string In]; [intros _ ? []|].
  destruct (PyStr.is_space c) eqn:Ec; cbn [andb]; [|discriminate].
  destruct (PyStr.rstrip s) eqn:Er; cbn [PyStr.truthy negb]; [|discriminate].
  intros _ c' [<-|H]; [exact Ec|now apply IH].
Qed.

Lemma lstrip_spaces (s : string) :
  (forall c, In c (list_ascii_of_string (PyStr.lstrip s)) -> PyStr.is_space c = true) ->
  forall c, In c (list_ascii_of_string s) -> PyStr.is_space c = true.
Proof.
  induction s as [|c s IH]; cbn [PyStr.lstrip list_ascii_of_string In]; [intros _ ? []|].
  destruct (PyStr.is_space c) eqn:Ec.
  - intros H c' [<-|Hin]; [exact Ec|now apply IH].
  - intros H c' Hin. now apply H.
Qed.

Lemma split_spaces (s : string) :
  (forall c, In c (list_ascii_of_string s) -> PyStr.is_space c = true) ->
  PyStr.split "," s = [s].
Proof.
  induction s as [|c s IH]; cbn [PyStr.split list_ascii_of_string In]; [reflexivity|].
  intros H. destruct (Ascii.eqb c ",") eqn:E.
  - apply Ascii.eqb_eq in E. subst c. specialize (H ","%char (or_introl eq_refl)).
    discriminate H.
  - rewrite IH by (intros; apply H; now right). reflexivity.
Qed.

(** A text that is blank as a whole has no comma: its only part is
    itself. *)
Lemma blank_text_one_part (csv : string) :
  PyStr.strip csv = "" -> PyStr.split "," csv = [csv].
Proof.
  intros H. apply split_spaces, lstrip_spaces, rstrip_empty_spaces. exact H.
Qed.

End BlankText.

(** X3. [times_of_day] takes precedence: as soon as its text has one
    part that is not blank, the [time_of_day] cell is not read at all,
    so replacing it by anything leaves the outcome of [_parse_times]
    (the list, or the exception) unchanged. *)
Theorem times_of_day_takes_precedence
    (job : row) (csv part : string) (x : tod_value) :
  Job.times_of_day job = Some csv ->
  In part (PyStr.split "," csv) ->
  PyStr.strip part <> "" ->
  _parse_times (with_time_of_day x job) = _parse_times job.
Proof.
  intros Hcsv Hin Hne. unfold _parse_times.
  cbn [with_time_of_day Job.times_of_day Job.time_of_day]. rewrite Hcsv.
  assert (Ht : PyStr.truthy (PyStr.strip csv) = true).
  { destruct (PyStr.strip csv) eqn:E; [|reflexivity].
    rewrite (blank_text_one_part csv E) in Hin. destruct Hin as [<-|[]]. congruence. }
  rewrite Ht.
  destruct (parse_parts (PyStr.split "," csv)) as [out|e] eqn:P; cbn [rbind]; [|reflexivity].
  pose proof (parse_parts_nonempty _ _ _ Hin Hne P) as Hout.
  destruct out; [congruence|reflexivity].
Qed.

Lemma times_of_day_takes_precedence_witness :
  _parse_times (with_time_of_day (TodOther "not a time") Fixture.daily)
  = _parse_times Fixture.daily.
Proof.
  apply (times_of_day_takes_precedence Fixture.daily "08:00,20:00" "20:00").
  - reflexivity.
  - right. left. reflexivity.
  - discriminate.
Defined.

(** ** The weekday set *)

Section SortedSets.

Lemma set_insert_In (x y : Z) (l : list Z) : In y (set_insert x l) <-> y = x \/ In y l.
Proof.
  induction l as [|z l IH]; cbn [set_insert In]; [intuition congruence|].
  destruct (x <? z) eqn:E1; cbn [In]; [intuition congruence|].
  destruct (x =? z) eqn:E2; cbn [In].
  - apply Z.eqb_eq in E2 as <-. intuition congruence.
  - rewrite IH. intuition congruence.
Qed.

Lemma set_insert_sorted (x : Z) (l : list Z) :
  StronglySorted Z.lt l -> StronglySorted Z.lt (set_insert x l).
Proof.
  induction l as [|z l IH]; intros Hs; cbn [set_insert].
  - constructor; constructor.
  - apply StronglySorted_inv in Hs as Hinv. destruct Hinv as [Hl Hz].
    destruct (x <? z) eqn:E1.
    + apply Z.ltb_lt in E1. constructor; [exact Hs|].
      constructor; [exact E1|].
      rewrite List.Forall_forall in Hz |- *. intros y Hy. specialize (Hz y Hy). lia.
    + destruct (x =? z) eqn:E2; [exact Hs|].
      apply Z.ltb_ge in E1. apply Z.eqb_neq in E2.
      constructor; [now apply IH|].
      apply List.Forall_forall. intros y Hy. apply set_insert_In in Hy as [->|Hy]; [lia|].
      rewrite List.Forall_forall in Hz. now apply Hz.
Qed.

Lemma sorted_set_fold (l acc : list Z) :
  StronglySorted Z.lt acc ->
  StronglySorted Z.lt (fold_left (fun acc x => set_insert x acc) l acc) /\
  forall y, In y (fold_left (fun acc x => set_insert x acc) l acc) <-> In y acc \/ In y l.
Proof.
  revert acc. induction l as [|x l IH]; intros acc Hs; cbn [fold_left In]; [tauto|].
  destruct (IH (set_insert x acc) (set_insert_sorted x acc Hs)) as [G1 G2].
  split; [exact G1|]. intros y. rewrite G2, set_insert_In. intuition congruence.
Qed.

Lemma sorted_set_sorted (l : list Z) : StronglySorted Z.lt (sorted_set l).
Proof. apply sorted_set_fold. constructor. Qed.

Lemma sorted_set_In (l : list Z) (y : Z) : In y (sorted_set l) <-> In y l.
Proof.
  unfold sorted_set. destruct (sorted_set_fold l []) as [_ H]; [constructor|].
  rewrite H. cbn [In]. tauto.
Qed.

(** Two strictly ascending lists with the same members are equal. *)
Lemma strictly_sorted_ext (l1 l2 : list Z) :
  StronglySorted Z.lt l1 -> StronglySorted Z.lt l2 ->
  (forall x, In x l1 <-> In x l2) -> l1 = l2.
Proof.
  revert l2. induction l1 as [|a l1 IH]; intros l2 H1 H2 Hm.
  - destruct l2 as [|b l2]; [reflexivity|]. destruct (proj2 (Hm b) (or_introl eq_refl)).
  - destruct l2 as [|b l2]; [destruct (proj1 (Hm a) (or_introl eq_refl))|].
    apply StronglySorted_inv in H1 as [H1 Ha]. apply StronglySorted_inv in H2 as [H2 Hb].
    rewrite List.Forall_forall in Ha, Hb.
    assert (a = b).
    { destruct (proj1 (Hm a) (or_introl eq_refl)) as [E|Hin]; [congruence|].
      destruct (proj2 (Hm b) (or_introl eq_refl)) as [E|Hin']; [congruence|].
      specialize (Ha _ Hin'). specialize (Hb _ Hin). lia. }
    subst b. f_equal. apply IH; [assumption..|].
    intros x. split; intros Hx.
    + destruct (proj1 (Hm x) (or_intror Hx)) as [<-|]; [|assumption].
      specialize (Ha _ Hx). lia.
    + destruct (proj2 (Hm x) (or_intror Hx)) as [<-|]; [|assumption].
      specialize (Hb _ Hx). lia.
Qed.

End SortedSets.

Section WeekdayTokens.

Lemma dow_map_lookup (x : string) (w : Z) :
  dict_get DOW_MAP x = Some w ->
  0 <= w <= 6 /\ dict_get norm (PyStr.upper x) <> None /\ PyStr.upper x <> x.
Proof.
  unfold DOW_MAP. cbn [dict_get].
  repeat (destruct (String.eqb x _) eqn:E;
          [apply String.eqb_eq in E; subst x; intros [= <-];
           split; [lia|split; [vm_compute; discriminate|vm_compute; discriminate]]
          |clear E]).
  discriminate.
Qed.

Lemma omap_In {A B : Type} (f : A -> option B) (l : list A) (y : B) :
  In y (omap f l) <-> exists x, In x l /\ f x = Some y.
Proof.
  rewrite <- list_elem_of_In, list_elem_of_omap.
  split; intros (x & H1 & H2); exists x; [rewrite <- list_elem_of_In|rewrite list_elem_of_In];
    auto.
Qed.

(** The tokens of a collection, or of the parts of a text, contribute
    the weekdays [day_of_token] reads from them. *)
Lemma parse_days_tokens (l : list string) (w : Z) :
  In w (sorted_set
          (omap (dict_get DOW_MAP)
             (map (fun t => default t (dict_get norm (PyStr.upper t)))
                (omap (fun t => let t' := PyStr.strip t in
                                if PyStr.truthy t' then Some t' else None) l))))
  <-> exists t, In t l /\ day_of_token t = Some w.
Proof.
  rewrite sorted_set_In, omap_In. unfold day_of_token. split.
  - intros (x & Hx & Hw). apply in_map_iff in Hx as (t' & <- & Ht').
    apply omap_In in Ht' as (t & Ht & Hs). exists t. split; [exact Ht|].
    cbv zeta in *. destruct (PyStr.truthy (PyStr.strip t)); [|discriminate].
    injection Hs as <-. exact Hw.
  - intros (t & Ht & Hw). cbv zeta in Hw.
    destruct (PyStr.truthy (PyStr.strip t)) eqn:E; [|discriminate].
    eexists. split; [|exact Hw].
    apply in_map_iff. exists (PyStr.strip t). split; [reflexivity|].
    apply omap_In. exists t. split; [exact Ht|]. cbv zeta. now rewrite E.
Qed.

Lemma parse_days_In (raw : days_value) (w : Z) :
  In w (_parse_days raw) <->
  match raw with
  | DaysNone => False
  | DaysColl l => exists t, In t l /\ day_of_token t = Some w
  | DaysOther s => s <> "" /\ exists t, In t (PyStr.split "," s) /\ day_of_token t = Some w
  end.
Proof.
  unfold _parse_days. destruct raw as [|l|s].
  - cbn. tauto.
  - apply parse_days_tokens.
  - destruct s as [|c s]; cbn [PyStr.truthy].
    + cbn. split; [intros []|intros [H _]; congruence].
    + rewrite parse_days_tokens. split; [intros H; split; [discriminate|exact H]|tauto].
Qed.

End WeekdayTokens.

Lemma parse_days_range (raw : days_value) :
  StronglySorted Z.lt (_parse_days raw) /\
  List.Forall (fun w => 0 <= w <= 6) (_parse_days raw).
Proof.
  split; [apply sorted_set_sorted|].
  apply List.Forall_forall. intros w Hw.
  assert (exists t, day_of_token t = Some w) as (t & Ht).
  { apply parse_days_In in Hw. destruct raw as [|l|s]; [destruct Hw| |];
      [destruct Hw as (t & _ & H)|destruct Hw as (_ & t & _ & H)]; eauto. }
  unfold day_of_token in Ht. cbv zeta in Ht.
  destruct (PyStr.truthy _); [|discriminate].
  now apply dow_map_lookup in Ht as [? _].
Qed.

(** X4. [_parse_days] returns the weekdays as a strictly ascending list
    of numbers between 0 (Monday) and 6 (Sunday): at most one entry for
    a weekday, however often and in whatever spelling it was given, and
    nothing for a token it does not know. *)
Theorem parse_days_sorted_range (raw : days_value) :
  StronglySorted Z.lt (_parse_days raw) /\
  List.Forall (fun w => 0 <= w <= 6) (_parse_days raw).
Proof. exact (parse_days_range raw). Qed.

(** X5. A collection of weekday tokens is read as a set: two
    collections with the same members give the same weekday list,
    whatever the order and the repetitions (the connector returns a
    MySQL SET as a Python set, whose order is not fixed). *)
Theorem parse_days_order_irrelevant (l l' : list string) :
  (forall t, In t l <-> In t l') ->
  _parse_days (DaysColl l) = _parse_days (DaysColl l').
Proof.
  intros H. apply strictly_sorted_ext; try apply parse_days_range.
  intros w. rewrite !parse_days_In. split; intros (t & Ht & Hw); exists t; split;
    try exact Hw; now apply H.
Qed.

Lemma parse_days_order_irrelevant_witness :
  _parse_days (DaysColl ["Sun"; "Sat"; "Sun"]) = _parse_days (DaysColl ["Sat"; "Sun"]).
Proof.
  apply (parse_days_order_irrelevant ["Sun"; "Sat"; "Sun"] ["Sat"; "Sun"]).
  intros t. cbn [In]. tauto.
Defined.

Section UpperCase.

Lemma upper_char_idem (c : ascii) : PyStr.upper_char (PyStr.upper_char c) = PyStr.upper_char c.
Proof. destruct c as [[] [] [] [] [] [] [] []]; reflexivity. Qed.

Lemma upper_char_space (c : ascii) : PyStr.is_space (PyStr.upper_char c) = PyStr.is_space c.
Proof. destruct c as [[] [] [] [] [] [] [] []]; reflexivity. Qed.

Lemma upper_char_comma (c : ascii) : Ascii.eqb (PyStr.upper_char c) "," = Ascii.eqb c ",".
Proof. destruct c as [[] [] [] [] [] [] [] []]; reflexivity. Qed.

Lemma upper_idem (s : string) : PyStr.upper (PyStr.upper s) = PyStr.upper s.
Proof.
  induction s as [|c s IH]; cbn [PyStr.upper]; [reflexivity|].
  now rewrite upper_char_idem, IH.
Qed.

Lemma upper_truthy (s : string) : PyStr.truthy (PyStr.upper s) = PyStr.truthy s.
Proof. destruct s; reflexivity. Qed.

Lemma upper_lstrip (s : string) : PyStr.lstrip (PyStr.upper s) = PyStr.upper (PyStr.lstrip s).
Proof.
  induction s as [|c s IH]; cbn [PyStr.upper PyStr.lstrip]; [reflexivity|].
  rewrite upper_char_space. destruct (PyStr.is_space c); [exact IH|reflexivity].
Qed.

Lemma upper_rstrip (s : string) : PyStr.rstrip (PyStr.upper s) = PyStr.upper (PyStr.rstrip s).
Proof.
  induction s as [|c s IH]; cbn [PyStr.upper PyStr.rstrip]; [reflexivity|].
  rewrite upper_char_space, IH, upper_truthy.
  destruct (PyStr.is_space c && negb (PyStr.truthy (PyStr.rstrip s))); reflexivity.
Qed.

Lemma upper_strip (s : string) : PyStr.strip (PyStr.upper s) = PyStr.upper (PyStr.strip s).
Proof. unfold PyStr.strip. now rewrite upper_lstrip, upper_rstrip. Qed.

Lemma upper_split (s : string) :
  PyStr.split "," (PyStr.upper s) = map PyStr.upper (PyStr.split "," s).
Proof.
  induction s as [|c s IH]; cbn [PyStr.upper PyStr.split]; [reflexivity|].
  rewrite upper_char_comma, IH.
  destruct (Ascii.eqb c ","); [reflexivity|].
  destruct (PyStr.split "," s); reflexivity.
Qed.

Lemma day_of_token_upper (t : string) : day_of_token (PyStr.upper t) = day_of_token t.
Proof.
  unfold day_of_token. cbv zeta. rewrite upper_strip, upper_truthy, upper_idem.
  destruct (PyStr.truthy (PyStr.strip t)); [|reflexivity].
  destruct (dict_get norm (PyStr.upper (PyStr.strip t))) as [v|] eqn:E; [reflexivity|].
  cbv [default from_option id].
  destruct (dict_get DOW_MAP (PyStr.upper (PyStr.strip t))) as [w|] eqn:E1.
  { apply dow_map_lookup in E1 as (_ & _ & H). now rewrite upper_idem in H. }
  destruct (dict_get DOW_MAP (PyStr.strip t)) as [w|] eqn:E2; [|reflexivity].
  apply dow_map_lookup in E2 as (_ & H & _). congruence.
Qed.

End UpperCase.

(** X6. Weekday tokens are read without regard to case: putting every
    token of a collection, or a whole text, in upper case changes
    nothing in the weekday list. *)
Theorem parse_days_case_insensitive (l : list string) (s : string) :
  _parse_days (DaysColl (map PyStr.upper l)) = _parse_days (DaysColl l) /\
  _parse_days (DaysOther (PyStr.upper s)) = _parse_days (DaysOther s).
Proof.
  split; apply strictly_sorted_ext; try apply parse_days_range;
    intros w; rewrite !parse_days_In.
  - split.
    + intros (t & Ht & Hw). apply in_map_iff in Ht as (t0 & <- & Ht0).
      exists t0. split; [exact Ht0|]. now rewrite day_of_token_upper in Hw.
    + intros (t & Ht & Hw). exists (PyStr.upper t). split; [now apply in_map|].
      now rewrite day_of_token_upper.
  - rewrite upper_split. split.
    + intros (Hne & t & Ht & Hw). split; [destruct s; [cbn in Hne|]; congruence|].
      apply in_map_iff in Ht as (t0 & <- & Ht0).
      exists t0. split; [exact Ht0|]. now rewrite day_of_token_upper in Hw.
    + intros (Hne & t & Ht & Hw). split; [destruct s; [|cbn]; congruence|].
      exists (PyStr.upper t). split; [now apply in_map|].
      now rewrite day_of_token_upper.
Qed.

(** ** DAILY: the earliest time of day after now *)

Section DayArithmetic.

Lemma date_bounds (now : Z) :
  Datetime.date now * Datetime.us_per_day <= now
  < (Datetime.date now + 1) * Datetime.us_per_day.
Proof.
  unfold Datetime.date.
  pose proof (Z.div_mod now Datetime.us_per_day ltac:(discriminate)) as H.
  pose proof (Z.mod_pos_bound now Datetime.us_per_day ltac:(reflexivity)) as Hb.
  lia.
Qed.

Lemma combine_bounds (d : Z) (tm : dtime) :
  valid_time tm ->
  d * Datetime.us_per_day <= Datetime.combine d tm < (d + 1) * Datetime.us_per_day.
Proof.
  unfold valid_time, Datetime.combine, Datetime.us_per_day, Datetime.us_per_sec. lia.
Qed.

Lemma combine_date (d : Z) (tm : dtime) :
  valid_time tm -> Datetime.date (Datetime.combine d tm) = d.
Proof.
  intros Hv. pose proof (combine_bounds d tm Hv) as Hb.
  pose proof (date_bounds (Datetime.combine d tm)) as Hd.
  unfold Datetime.us_per_day, Datetime.us_per_sec in *. lia.
Qed.

Lemma combine_lt (d : Z) (a b : dtime) :
  valid_time a -> valid_time b -> time_lt a b ->
  Datetime.combine d a < Datetime.combine d b.
Proof.
  unfold valid_time, time_lt, time_key, key_lt, Datetime.combine, Datetime.us_per_day,
    Datetime.us_per_sec. lia.
Qed.

End DayArithmetic.

Section DailyScan.

Variable now : Z.
Variable times : list dtime.
Hypothesis times_sorted : StronglySorted time_lt times.
Hypothesis times_valid : List.Forall valid_time times.

Lemma daily_times_none (d : Z) (ts : list dtime) :
  daily_times now d ts = None -> forall tm, In tm ts -> Datetime.combine d tm <= now.
Proof.
  induction ts as [|a ts IH]; cbn [daily_times In]; [intros _ ? []|].
  destruct (now <? Datetime.combine d a) eqn:E; [discriminate|].
  apply Z.ltb_ge in E. intros H tm [<-|Hin]; [exact E|now apply IH].
Qed.

Lemma daily_times_first (d : Z) (ts : list dtime) (c : Z) :
  StronglySorted time_lt ts -> List.Forall valid_time ts ->
  daily_times now d ts = Some c ->
  candidate ts d c /\ now < c /\
  forall tm, In tm ts -> now < Datetime.combine d tm -> c <= Datetime.combine d tm.
Proof.
  induction ts as [|a ts IH]; cbn [daily_times]; [discriminate|].
  intros Hs Hv. apply StronglySorted_inv in Hs as [Hs Ha].
  apply List.Forall_cons_iff in Hv as [Hva Hv].
  destruct (now <? Datetime.combine d a) eqn:E.
  - apply Z.ltb_lt in E. intros [= <-]. split; [exists a; split; [now left|reflexivity]|].
    split; [exact E|]. intros tm [<-|Hin] _; [lia|].
    rewrite List.Forall_forall in Ha, Hv.
    pose proof (combine_lt d a tm Hva (Hv _ Hin) (Ha _ Hin)). lia.
  - apply Z.ltb_ge in E. intros H. destruct (IH Hs Hv H) as ((tm & Hin & ->) & Hlt & Hmin).
    split; [exists tm; split; [now right|reflexivity]|]. split; [exact Hlt|].
    intros tm' [<-|Hin'] Hn; [lia|now apply Hmin].
Qed.

(** The 14 day offsets are never all needed: the answer lies on the
    day of [now] or on the next one, and it is the earliest candidate
    after [now] on any day. *)
Lemma daily_scan_earliest :
  times <> [] ->
  exists cand,
    daily_scan now times (seqZ 0 14) = Some cand /\
    now < cand /\
    (candidate times (Datetime.date now) cand
     \/ candidate times (Datetime.date now + 1) cand) /\
    forall d c, candidate times d c -> now < c -> cand <= c.
Proof.
  intros Hne.
  change (seqZ 0 14) with [0; 1; 2; 3; 4; 5; 6; 7; 8; 9; 10; 11; 12; 13].
  cbn [daily_scan]. rewrite Z.add_0_r.
  pose proof (date_bounds now) as Hnow.
  assert (Hday : forall d tm, In tm times ->
            d * Datetime.us_per_day <= Datetime.combine d tm
            < (d + 1) * Datetime.us_per_day).
  { intros d tm Hin. apply combine_bounds.
    rewrite List.Forall_forall in times_valid. now apply times_valid. }
  destruct (daily_times now (Datetime.date now) times) as [c0|] eqn:E0.
  - destruct (daily_times_first _ _ _ times_sorted times_valid E0)
      as (Hc & Hlt & Hmin).
    exists c0. split; [reflexivity|]. split; [exact Hlt|]. split; [now left|].
    intros d c (tm & Hin & ->) Hn.
    pose proof (Hday d tm Hin). destruct Hc as (tm0 & Hin0 & ->).
    pose proof (Hday (Datetime.date now) tm0 Hin0).
    destruct (Z.lt_trichotomy d (Datetime.date now)) as [Hd|[->|Hd]].
    + unfold Datetime.us_per_day in *. nia.
    + now apply Hmin.
    + unfold Datetime.us_per_day in *. nia.
  - pose proof (daily_times_none _ _ E0) as Hpast.
    destruct times as [|a ts] eqn:Et; [congruence|]. rewrite <- Et in *.
    destruct (daily_times now (Datetime.date now + 1) times) as [c1|] eqn:E1.
    + destruct (daily_times_first _ _ _ times_sorted times_valid E1)
        as (Hc & Hlt & Hmin).
      exists c1. split; [reflexivity|]. split; [exact Hlt|]. split; [now right|].
      intros d c (tm & Hin & ->) Hn.
      pose proof (Hday d tm Hin). destruct Hc as (tm1 & Hin1 & ->).
      pose proof (Hday (Datetime.date now + 1) tm1 Hin1).
      destruct (Z.lt_trichotomy d (Datetime.date now + 1)) as [Hd|[->|Hd]].
      * specialize (Hpast tm Hin).
        assert (d < Datetime.date now \/ d = Datetime.date now) as [Hd'| ->] by lia.
        -- unfold Datetime.us_per_day in *. nia.
        -- lia.
      * now apply Hmin.
      * unfold Datetime.us_per_day in *. nia.
    + exfalso. pose proof (daily_times_none _ _ E1 a) as Ha.
      assert (Hin : In a times) by (rewrite Et; now left).
      specialize (Ha Hin). pose proof (Hday (Datetime.date now + 1) a Hin).
      unfold Datetime.us_per_day in *. lia.
Qed.

End DailyScan.

(** X7. A DAILY job with a non-empty times list is always given a next
    instant, and it is the first wall clock after now: a time of the
    list on the day of now or on the next day, strictly after now, and
    no time of the list on any day lies between now and it. *)
Theorem daily_next_is_earliest
    (h : Host) (utc : Z) (job : row) (default_tz : string) (times : list dtime) :
  stype_of job = "DAILY" ->
  _parse_times job = Ok times ->
  times <> [] ->
  (forall t, Job.time_of_day job = TodTime t -> valid_time t) ->
  let job_tz := _get_zoneinfo h (job_tz_name job default_tz) in
  let sess_tz := _get_zoneinfo h default_tz in
  let now := now_of h job_tz utc in
  exists cand,
    compute_next_run_at h utc job default_tz
    = Ok (Some (to_session (String.eqb (job_tz_name job default_tz) default_tz)
                  job_tz sess_tz cand)) /\
    now < cand /\
    (candidate times (Datetime.date now) cand
     \/ candidate times (Datetime.date now + 1) cand) /\
    forall d c, candidate times d c -> now < c -> cand <= c.
Proof.
  intros Hs Ht Hne Htod job_tz sess_tz now.
  pose proof (parse_times_sorted job times Ht) as Hsorted.
  pose proof (parse_times_in_range job times Ht Htod) as Hvalid.
  destruct (daily_scan_earliest now times Hsorted Hvalid Hne) as (cand & Hscan & Hrest).
  exists cand. split; [|exact Hrest].
  unfold compute_next_run_at. fold job_tz sess_tz now.
  rewrite Ht, Hs. cbn [rbind].
  change (String.eqb "DAILY" "ONCE") with false.
  change (String.eqb "DAILY" "DAILY") with true. cbv iota.
  destruct times as [|a ts]; [congruence|].
  rewrite Hscan. reflexivity.
Qed.

Lemma daily_next_is_earliest_witness :
  exists cand,
    compute_next_run_at Fixture.host_utc Fixture.just_before_eight Fixture.daily
      "Asia/Taipei" = Ok (Some cand) /\
    Datetime.at_ 2030 1 1 7 59 30 < cand.
Proof.
  destruct (daily_next_is_earliest Fixture.host_utc Fixture.just_before_eight
              Fixture.daily "Asia/Taipei" [Dtime 8 0 0 0; Dtime 20 0 0 0]
              eq_refl eq_refl ltac:(discriminate) ltac:(intros t H; discriminate H))
    as (cand & Hc & Hlt & _).
  exists cand. split; [exact Hc|exact Hlt].
Defined.

(** ** WEEKLY: the earliest time of day on a listed weekday *)

Section WeeklyScan.

Variable now : Z.
Variable dows : list Z.
Variable times : list dtime.

(** The inner loop keeps the least candidate after [now] seen so far. *)
Lemma weekly_times_fold (d : Z) (ts : list dtime) (best : option Z) :
  match weekly_times now d ts best with
  | None => best = None /\ forall tm, In tm ts -> Datetime.combine d tm <= now
  | Some c =>
      (best = Some c \/ (now < c /\ candidate ts d c)) /\
      (forall b, best = Some b -> c <= b) /\
      (forall tm, In tm ts -> now < Datetime.combine d tm -> c <= Datetime.combine d tm)
  end.
Proof.
  unfold weekly_times. revert best.
  induction ts as [|a ts IH]; intros best; cbn [fold_left].
  - destruct best as [b|].
    + split; [now left|]. split; [intros ? [= <-]; lia|intros ? []].
    + split; [reflexivity|intros ? []].
  - set (best' := if Datetime.combine d a <=? now then best
                  else match best with
                       | Some b => if Datetime.combine d a <? b
                                   then Some (Datetime.combine d a) else Some b
                       | None => Some (Datetime.combine d a)
                       end).
    specialize (IH best'). fold best'.
    destruct (fold_left _ ts best') as [c|].
    + destruct IH as (Hsrc & Hle & Hmin).
      assert (Hstep : (best' = best /\ Datetime.combine d a <= now) \/
                      (now < Datetime.combine d a /\
                       ((best' = Some (Datetime.combine d a) /\
                         forall b, best = Some b -> Datetime.combine d a <= b) \/
                        (exists b, best = Some b /\ best' = Some b /\
                                   b <= Datetime.combine d a)))).
      { subst best'. destruct (Datetime.combine d a <=? now) eqn:E.
        - left. split; [reflexivity|now apply Z.leb_le].
        - right. apply Z.leb_gt in E. split; [exact E|].
          destruct best as [b|].
          + destruct (Datetime.combine d a <? b) eqn:E'.
            * left. split; [reflexivity|]. intros ? [= <-]. apply Z.ltb_lt in E'. lia.
            * right. exists b. apply Z.ltb_ge in E'. auto.
          + left. split; [reflexivity|discriminate]. }
      split; [|split].
      * destruct Hsrc as [Hsrc|(Hlt & tm & Hin & ->)].
        -- destruct Hstep as [[Hb _]|[Hlt [[Hb _]|(b & Hb & Hb' & _)]]].
           ++ left. congruence.
           ++ right. rewrite Hsrc in Hb. injection Hb as ->.
              split; [exact Hlt|]. exists a. split; [now left|reflexivity].
           ++ left. congruence.
        -- right. split; [exact Hlt|]. exists tm. split; [now right|reflexivity].
      * intros b Hb. destruct Hstep as [[Hb' _]|[Hlt [[Hb' Hall]|(b0 & Hb0 & Hb' & _)]]].
        -- apply Hle. congruence.
        -- specialize (Hle _ Hb'). specialize (Hall _ Hb). lia.
        -- apply Hle. congruence.
      * intros tm [<-|Hin] Hn; [|now apply Hmin].
        destruct Hstep as [[_ Hpast]|[_ [[Hb' _]|(b0 & _ & Hb' & Hb0)]]]; [lia| |].
        -- now apply Hle.
        -- specialize (Hle _ Hb'). lia.
    + destruct IH as (Hb' & Hpast). subst best'.
      destruct (Datetime.combine d a <=? now) eqn:E.
      * split; [exact Hb'|]. apply Z.leb_le in E.
        intros tm [<-|Hin]; [exact E|now apply Hpast].
      * destruct best as [b|]; [destruct (_ <? _)|]; discriminate.
Qed.

(** The outer loop stops at the first listed day with a candidate. *)
Lemma weekly_scan_first (offsets : list Z) :
  match weekly_scan now dows times offsets None with
  | None =>
      forall j, In j offsets -> In (Datetime.weekday (Datetime.date now + j)) dows ->
                forall tm, In tm times -> Datetime.combine (Datetime.date now + j) tm <= now
  | Some c =>
      exists pre i post,
        offsets = (pre ++ i :: post)%list /\
        (forall j, In j pre -> In (Datetime.weekday (Datetime.date now + j)) dows ->
                   forall tm, In tm times ->
                   Datetime.combine (Datetime.date now + j) tm <= now) /\
        In (Datetime.weekday (Datetime.date now + i)) dows /\
        weekly_times now (Datetime.date now + i) times None = Some c
  end.
Proof.
  induction offsets as [|i rest IH]; cbn [weekly_scan]; [intros ? []|].
  destruct (bool_decide (Datetime.weekday (Datetime.date now + i) ∈ dows)) eqn:E;
    cbn [negb].
  - apply bool_decide_eq_true, list_elem_of_In in E.
    destruct (weekly_times now (Datetime.date now + i) times None) as [c|] eqn:Ew.
    + exists [], i, rest. split; [reflexivity|]. split; [intros ? []|]. auto.
    + pose proof (weekly_times_fold (Datetime.date now + i) times None) as Hf.
      rewrite Ew in Hf. destruct Hf as [_ Hpast].
      destruct (weekly_scan now dows times rest None) as [c|].
      * destruct IH as (pre & i' & post & -> & Hpre & Hin & Hw).
        exists (i :: pre), i', post. split; [reflexivity|]. split; [|auto].
        intros j [<-|Hj]; [intros _; exact Hpast|now apply Hpre].
      * intros j [<-|Hj]; [intros _; exact Hpast|now apply IH].
  - apply bool_decide_eq_false in E. rewrite list_elem_of_In in E.
    destruct (weekly_scan now dows times rest None) as [c|].
    + destruct IH as (pre & i' & post & -> & Hpre & Hin & Hw).
      exists (i :: pre), i', post. split; [reflexivity|]. split; [|auto].
      intros j [<-|Hj]; [contradiction|now apply Hpre].
    + intros j [<-|Hj]; [contradiction|now apply IH].
Qed.

(** In [range(0, n)] what precedes [i] is what is below [i]. *)
Lemma seqZ_split (n : Z) (pre post : list Z) (i : Z) :
  seqZ 0 n = (pre ++ i :: post)%list ->
  0 <= i < n /\ forall j, 0 <= j < i -> In j pre.
Proof.
  intros H.
  assert (Hi : seqZ 0 n !! length pre = Some i).
  { rewrite H. rewrite lookup_app_r by lia. now rewrite Nat.sub_diag. }
  apply lookup_seqZ in Hi as [Hi Hlt]. split; [lia|].
  intros j Hj.
  assert (Hj' : seqZ 0 n !! Z.to_nat j = Some j).
  { apply lookup_seqZ. lia. }
  rewrite H, lookup_app_l in Hj' by lia.
  apply list_elem_of_In. eapply list_elem_of_lookup_2. exact Hj'.
Qed.

(** Every weekday comes within the next seven days. *)
Lemma weekday_within_week (d w : Z) :
  0 <= w <= 6 -> exists i, 1 <= i <= 7 /\ Datetime.weekday (d + i) = w.
Proof.
  intros Hw. exists ((w - Datetime.weekday d - 1) mod 7 + 1).
  unfold Datetime.weekday. Z.div_mod_to_equations. lia.
Qed.

Hypothesis times_valid : List.Forall valid_time times.
Hypothesis dows_range : List.Forall (fun w => 0 <= w <= 6) dows.

Lemma weekly_scan_earliest :
  times <> [] -> dows <> [] ->
  exists cand d,
    weekly_scan now dows times (seqZ 0 366) None = Some cand /\
    now < cand /\
    candidate times d cand /\
    Datetime.date now <= d <= Datetime.date now + 7 /\
    In (Datetime.weekday d) dows /\
    forall d' c, In (Datetime.weekday d') dows -> candidate times d' c -> now < c ->
                 cand <= c.
Proof.
  intros Hts Hds.
  pose proof (date_bounds now) as Hnow.
  assert (Hday : forall d tm, In tm times ->
            d * Datetime.us_per_day <= Datetime.combine d tm
            < (d + 1) * Datetime.us_per_day).
  { intros d tm Hin. apply combine_bounds.
    rewrite List.Forall_forall in times_valid. now apply times_valid. }
  destruct times as [|a ts] eqn:Et; [congruence|]. rewrite <- Et in *.
  assert (Ha : In a times) by (rewrite Et; now left).
  destruct dows as [|w ws] eqn:Ed; [congruence|]. rewrite <- Ed in *.
  assert (Hw : In w dows) by (rewrite Ed; now left).
  destruct (weekday_within_week (Datetime.date now) w) as (k & Hk & Hwk).
  { rewrite List.Forall_forall in dows_range. now apply dows_range. }
  assert (Hfuture : forall j, 1 <= j ->
            ~ (forall tm, In tm times ->
                 Datetime.combine (Datetime.date now + j) tm <= now)).
  { intros j Hj Hall. specialize (Hall a Ha).
    pose proof (Hday (Datetime.date now + j) a Ha).
    unfold Datetime.us_per_day in *. nia. }
  pose proof (weekly_scan_first (seqZ 0 366)) as Hscan.
  destruct (weekly_scan now dows times (seqZ 0 366) None) as [cand|].
  - destruct Hscan as (pre & i & post & Hsplit & Hpre & Hin & Hwt).
    apply seqZ_split in Hsplit as [Hi Hbelow].
    pose proof (weekly_times_fold (Datetime.date now + i) times None) as Hf.
    rewrite Hwt in Hf. destruct Hf as ([Hf|[Hlt Hc]] & _ & Hmin); [discriminate|].
    assert (Hi7 : i <= 7).
    { destruct (Z.le_gt_cases i k) as [|Hgt]; [lia|]. exfalso.
      apply (Hfuture k); [lia|]. apply Hpre; [apply Hbelow; lia|]. now rewrite Hwk. }
    exists cand, (Datetime.date now + i).
    split; [reflexivity|]. split; [exact Hlt|]. split; [exact Hc|].
    split; [lia|]. split; [exact Hin|].
    intros d' c Hd' (tm & Htm & ->) Hn.
    destruct Hc as (tm0 & Htm0 & ->).
    pose proof (Hday d' tm Htm). pose proof (Hday (Datetime.date now + i) tm0 Htm0).
    destruct (Z.lt_trichotomy d' (Datetime.date now + i)) as [Hlt'|[->|Hgt]].
    + exfalso. destruct (Z.lt_ge_cases d' (Datetime.date now)) as [Hb|Hb].
      * unfold Datetime.us_per_day in *. nia.
      * assert (Hj : In (d' - Datetime.date now) pre) by (apply Hbelow; lia).
        specialize (Hpre _ Hj).
        replace (Datetime.date now + (d' - Datetime.date now)) with d' in Hpre by lia.
        specialize (Hpre Hd' tm Htm). lia.
    + now apply Hmin.
    + unfold Datetime.us_per_day in *. nia.
  - exfalso. apply (Hfuture k); [lia|].
    apply Hscan; [|now rewrite Hwk].
    apply list_elem_of_In, elem_of_seqZ. lia.
Qed.

End WeeklyScan.

(** X8. A WEEKLY job with a non-empty times list and at least one
    recognised weekday is always given a next instant, and it is the
    first wall clock after now among the times of the list on the
    listed weekdays: it falls on a listed weekday at most seven days
    after the day of now, and no time of the list on any listed weekday
    lies between now and it. *)
Theorem weekly_next_is_earliest
    (h : Host) (utc : Z) (job : row) (default_tz : string) (times : list dtime) :
  stype_of job = "WEEKLY" ->
  _parse_times job = Ok times ->
  times <> [] ->
  (forall t, Job.time_of_day job = TodTime t -> valid_time t) ->
  _parse_days (Job.days_of_week job) <> [] ->
  let job_tz := _get_zoneinfo h (job_tz_name job default_tz) in
  let sess_tz := _get_zoneinfo h default_tz in
  let now := now_of h job_tz utc in
  let dows := _parse_days (Job.days_of_week job) in
  exists cand d,
    compute_next_run_at h utc job default_tz
    = Ok (Some (to_session (String.eqb (job_tz_name job default_tz) default_tz)
                  job_tz sess_tz cand)) /\
    now < cand /\
    candidate times d cand /\
    Datetime.date now <= d <= Datetime.date now + 7 /\
    In (Datetime.weekday d) dows /\
    forall d' c, In (Datetime.weekday d') dows -> candidate times d' c -> now < c ->
                 cand <= c.
Proof.
  intros Hs Ht Hne Htod Hd job_tz sess_tz now dows.
  pose proof (parse_times_in_range job times Ht Htod) as Hvalid.
  destruct (parse_days_range (Job.days_of_week job)) as [_ Hrange].
  destruct (weekly_scan_earliest now dows times Hvalid Hrange Hne Hd)
    as (cand & d & Hscan & Hrest).
  exists cand, d. split; [|exact Hrest].
  unfold compute_next_run_at. fold job_tz sess_tz now.
  rewrite Ht, Hs. cbn [rbind].
  change (String.eqb "WEEKLY" "ONCE") with false.
  change (String.eqb "WEEKLY" "DAILY") with false.
  change (String.eqb "WEEKLY" "WEEKLY") with true. cbv iota.
  destruct times as [|a ts]; [congruence|].
  fold dows. fold dows in Hd.
  destruct dows as [|w ws] eqn:Ed; [congruence|].
  rewrite Hscan. reflexivity.
Qed.

Lemma weekly_next_is_earliest_witness :
  exists cand d,
    compute_next_run_at Fixture.host_utc (Datetime.at_ 2030 1 1 3 0 0) Fixture.weekly_mwf
      "Asia/Taipei" = Ok (Some cand) /\
    Datetime.at_ 2030 1 1 11 0 0 < cand /\
    In (Datetime.weekday d) [0; 2; 4].
Proof.
  destruct (weekly_next_is_earliest Fixture.host_utc (Datetime.at_ 2030 1 1 3 0 0)
              Fixture.weekly_mwf "Asia/Taipei" [Dtime 10 0 0 0]
              eq_refl eq_refl ltac:(discriminate) ltac:(intros t H; discriminate H)
              ltac:(discriminate))
    as (cand & d & Hc & Hlt & _ & _ & Hin & _).
  exists cand, d. split; [exact Hc|]. split; [exact Hlt|exact Hin].
Defined.

(** ** The query for due rows *)

Section DueRows.

Lemma order_insert_perm (r : row) (l : list row) :
  Permutation (Store.order_insert r l) (r :: l).
Proof.
  induction l as [|u l IH]; cbn [Store.order_insert]; [reflexivity|].
  destruct (Store.next_key u <=? Store.next_key r); [|reflexivity].
  rewrite IH. apply perm_swap.
Qed.

Lemma order_insert_sorted (r : row) (l : list row) :
  StronglySorted next_le l -> StronglySorted next_le (Store.order_insert r l).
Proof.
  induction l as [|u l IH]; intros Hs; cbn [Store.order_insert].
  - constructor; constructor.
  - apply StronglySorted_inv in Hs as Hinv. destruct Hinv as [Hl Hu].
    destruct (Store.next_key u <=? Store.next_key r) eqn:E.
    + apply Z.leb_le in E. constructor; [now apply IH|].
      apply List.Forall_forall. intros x Hx.
      apply (Permutation_in _ (order_insert_perm r l)) in Hx as [<-|Hx]; [exact E|].
      rewrite List.Forall_forall in Hu. now apply Hu.
    + apply Z.leb_gt in E. constructor; [exact Hs|].
      constructor; [unfold next_le; lia|].
      rewrite List.Forall_forall in Hu |- *. intros x Hx. specialize (Hu x Hx).
      unfold next_le in *. lia.
Qed.

Lemma order_fold (l acc : list row) :
  StronglySorted next_le acc ->
  StronglySorted next_le (fold_left (fun acc r => Store.order_insert r acc) l acc) /\
  Permutation (fold_left (fun acc r => Store.order_insert r acc) l acc) (acc ++ l).
Proof.
  revert acc. induction l as [|r l IH]; intros acc Hs; cbn [fold_left].
  - split; [exact Hs|]. now rewrite app_nil_r.
  - destruct (IH _ (order_insert_sorted r acc Hs)) as [G1 G2].
    split; [exact G1|]. rewrite G2, order_insert_perm.
    apply (Permutation_middle acc l r).
Qed.

Lemma order_by_next_run_at_sorted (l : list row) :
  StronglySorted next_le (Store.order_by_next_run_at l) /\
  Permutation (Store.order_by_next_run_at l) l.
Proof. apply (order_fold l []). constructor. Qed.

Lemma sorted_app_inv (l1 l2 : list row) :
  StronglySorted next_le (l1 ++ l2) ->
  StronglySorted next_le l1 /\
  forall a b, In a l1 -> In b l2 -> next_le a b.
Proof.
  induction l1 as [|x l1 IH]; cbn [app]; intros H.
  - split; [constructor|intros ? ? []].
  - apply StronglySorted_inv in H as [H Hx]. destruct (IH H) as [G1 G2].
    rewrite List.Forall_forall in Hx. split.
    + constructor; [exact G1|]. apply List.Forall_forall. intros y Hy.
      apply Hx, in_or_app. now left.
    + intros a b [<-|Ha] Hb; [apply Hx, in_or_app; now right|now apply G2].
Qed.

Lemma due_cells (now_db : Z) (r : row) :
  Store.due now_db r = true <->
  Job.enabled r = true /\ exists n, Job.next_run_at r = Some n /\ n <= now_db.
Proof.
  unfold Store.due. rewrite andb_true_iff. split.
  - intros [He Hn]. split; [exact He|].
    destruct (Job.next_run_at r) as [n|]; [|discriminate].
    exists n. split; [reflexivity|now apply Z.leb_le].
  - intros [He (n & -> & Hn)]. split; [exact He|now apply Z.leb_le].
Qed.

End DueRows.

(** X9. [fetch_due_jobs] returns at most [batch] rows, in ascending
    order of [next_run_at], and every one of them is a row of the table
    that is enabled and whose [next_run_at] is set and not after the
    store's [NOW()]. *)
Theorem fetch_due_jobs_sorted_bounded (h : Host) (utc : Z) (t : Store.table) (batch : Z) :
  0 <= batch ->
  let jobs := fetch_due_jobs h utc t batch in
  Z.of_nat (length jobs) <= batch /\
  StronglySorted next_le jobs /\
  List.Forall
    (fun r => In r t /\ Job.enabled r = true /\
              exists n, Job.next_run_at r = Some n /\ n <= mysql_now h utc) jobs.
Proof.
  intros Hb jobs. subst jobs. unfold fetch_due_jobs.
  set (due := List.filter (Store.due (mysql_now h utc)) t).
  destruct (order_by_next_run_at_sorted due) as [Hs Hp].
  split; [rewrite length_take; lia|]. split.
  - rewrite <- (take_drop (Z.to_nat batch) (Store.order_by_next_run_at due)) in Hs.
    now apply sorted_app_inv in Hs as [Hs _].
  - apply List.Forall_forall. intros r Hr.
    apply list_elem_of_In, subseteq_take, list_elem_of_In in Hr.
    apply (Permutation_in _ Hp), filter_In in Hr as [Hin Hd].
    split; [exact Hin|]. now apply due_cells.
Qed.

Lemma fetch_due_jobs_sorted_bounded_witness :
  Z.of_nat
    (length (fetch_due_jobs Fixture.host_taipei Fixture.noon
               [Fixture.flaky; Fixture.daily; Fixture.job42] 1)) <= 1.
Proof.
  apply (fetch_due_jobs_sorted_bounded Fixture.host_taipei Fixture.noon
           [Fixture.flaky; Fixture.daily; Fixture.job42] 1).
  lia.
Defined.

(** X10. The batch is made of the earliest due rows: a due row of the
    table that [fetch_due_jobs] does not return is left out only when
    the batch is full, and then no returned row has a later
    [next_run_at] than it. *)
Theorem fetch_due_jobs_earliest_first
    (h : Host) (utc : Z) (t : Store.table) (batch : Z) (r : row) :
  0 <= batch ->
  In r t ->
  Store.due (mysql_now h utc) r = true ->
  let jobs := fetch_due_jobs h utc t batch in
  In r jobs \/
  (Z.of_nat (length jobs) = batch /\ forall r', In r' jobs -> next_le r' r).
Proof.
  intros Hb Hin Hdue jobs. subst jobs. unfold fetch_due_jobs.
  set (due := List.filter (Store.due (mysql_now h utc)) t).
  destruct (order_by_next_run_at_sorted due) as [Hs Hp].
  assert (Hr : In r (Store.order_by_next_run_at due)).
  { apply (Permutation_in _ (Permutation_sym Hp)), filter_In. auto. }
  rewrite <- (take_drop (Z.to_nat batch) (Store.order_by_next_run_at due)) in Hr, Hs.
  apply in_app_or in Hr as [Hr|Hr]; [now left|right].
  apply sorted_app_inv in Hs as [_ Hle]. split.
  - rewrite length_take.
    destruct (Nat.le_gt_cases (Z.to_nat batch) (length (Store.order_by_next_run_at due)))
      as [Hlen|Hlen]; [lia|].
    rewrite drop_ge in Hr by lia. destruct Hr.
  - intros r' Hr'. now apply Hle.
Qed.

Lemma fetch_due_jobs_earliest_first_witness :
  In Fixture.flaky
    (fetch_due_jobs Fixture.host_taipei Fixture.noon [Fixture.flaky; Fixture.daily] 5) \/
  (Z.of_nat
     (length (fetch_due_jobs Fixture.host_taipei Fixture.noon
                [Fixture.flaky; Fixture.daily] 5)) = 5 /\
   forall r',
     In r' (fetch_due_jobs Fixture.host_taipei Fixture.noon [Fixture.flaky; Fixture.daily] 5)
     -> next_le r' Fixture.flaky).
Proof.
  apply (fetch_due_jobs_earliest_first Fixture.host_taipei Fixture.noon
           [Fixture.flaky; Fixture.daily] 5 Fixture.flaky).
  - lia.
  - left. reflexivity.
  - reflexivity.
Defined.

(** ** What a dispatch and a poll cycle leave untouched *)

Section Frame.

Lemma same_definition_refl (r : row) : same_definition r r.
Proof. unfold same_definition. tauto. Qed.

Lemma same_definition_trans (a b c : row) :
  same_definition a b -> same_definition b c -> same_definition a c.
Proof. unfold same_definition. intuition congruence. Qed.

Lemma update_where_id_same (j : Z) (t : Store.table) :
  Store.update_where_id j (fun r => r) t = t.
Proof.
  unfold Store.update_where_id. induction t as [|r t IH]; cbn [map]; [reflexivity|].
  rewrite IH. destruct (Job.id r =? j); reflexivity.
Qed.

Lemma update_where_id_frame (j : Z) (f : row -> row) (t : Store.table) :
  (forall r, same_definition r (f r)) ->
  Forall2 (fun r r' => same_definition r r' /\ (Job.id r <> j -> r' = r))
    t (Store.update_where_id j f t).
Proof.
  intros Hf. unfold Store.update_where_id.
  induction t as [|r t IH]; cbn [map]; constructor; [|exact IH].
  destruct (Job.id r =? j) eqn:E.
  - apply Z.eqb_eq in E. split; [apply Hf|]. congruence.
  - split; [apply same_definition_refl|reflexivity].
Qed.

Variable h : Host.
Variable send : nat -> row -> send_result.
Variable default_tz : string.

(** Whatever a dispatch does to the table is one statement on the rows
    of the dispatched id, which writes at most the three cells. *)
Lemma execute_one_statement (utc : Z) (job : row) (immediate : bool) (st : state) :
  exists f,
    store (fst (_execute_one h send default_tz utc job immediate st))
    = Store.update_where_id (Job.id job) f (store st) /\
    forall r, same_definition r (f r).
Proof.
  assert (Hsucc : forall t next_run disable,
            exists f, update_job_after_success h utc t (Job.id job) next_run disable
                      = Store.update_where_id (Job.id job) f t
                      /\ forall r, same_definition r (f r)).
  { intros t next_run disable. unfold update_job_after_success.
    destruct disable; [|destruct next_run];
      (eexists; split; [reflexivity|]; intros r; unfold same_definition; cbn; tauto). }
  assert (Hnone : exists f, store st = Store.update_where_id (Job.id job) f (store st)
                            /\ forall r, same_definition r (f r)).
  { exists (fun r => r). split; [now rewrite update_where_id_same|].
    apply same_definition_refl. }
  unfold _execute_one.
  destruct (send (calls st) job) as [[ok code] detail].
  destruct ok.
  - destruct (compute_next_run_at _ _ _ _) as [next_run|e]; [|exact Hnone].
    destruct (negb _ && _); cbn [fst emit with_store store]; apply Hsucc.
  - unfold update_job_after_failure.
    destruct (negb _ && _); cbn [fst emit with_store store].
    + eexists. split; [reflexivity|]. intros r. unfold same_definition. cbn. tauto.
    + destruct (compute_next_run_at _ _ _ _) as [next_run|e]; [|exact Hnone].
      destruct (bool_decide _); cbn [fst emit with_store store]; apply Hsucc.
Qed.

End Frame.

(** X11. A dispatch writes nothing but [enabled], [next_run_at] and
    [last_run_at], and only in rows of the dispatched id: it neither
    adds nor deletes a row, every row of another id is exactly what it
    was, and in every row all other cells keep their values. *)
Theorem dispatch_frame
    (h : Host) (send : nat -> row -> send_result) (default_tz : string)
    (utc : Z) (job : row) (immediate : bool) (st : state) :
  Forall2 (fun r r' => same_definition r r' /\ (Job.id r <> Job.id job -> r' = r))
    (store st)
    (store (fst (_execute_one h send default_tz utc job immediate st))).
Proof.
  destruct (execute_one_statement h send default_tz utc job immediate st) as (f & -> & Hf).
  now apply update_where_id_frame.
Qed.

Section CycleFrame.

Variable h : Host.
Variable send : nat -> row -> send_result.
Variable default_tz : string.

Lemma forall2_same_definition_trans (t1 t2 t3 : Store.table) :
  Forall2 same_definition t1 t2 -> Forall2 same_definition t2 t3 ->
  Forall2 same_definition t1 t3.
Proof.
  intros H12. revert t3. induction H12 as [|a b t1 t2 Hab H12 IH]; intros t3 H23.
  - inversion H23. constructor.
  - inversion H23 as [|b' c t2' t3' Hbc H23' E1 E2]; subst.
    constructor; [eapply same_definition_trans; eassumption|now apply IH].
Qed.

Lemma forall2_same_definition_refl (t : Store.table) : Forall2 same_definition t t.
Proof. induction t; constructor; [apply same_definition_refl|assumption]. Qed.

Lemma execute_one_same_definition (utc : Z) (job : row) (immediate : bool) (st : state) :
  Forall2 same_definition (store st)
    (store (fst (_execute_one h send default_tz utc job immediate st))).
Proof.
  destruct (execute_one_statement h send default_tz utc job immediate st) as (f & -> & Hf).
  eapply Forall2_impl; [apply update_where_id_frame; exact Hf|].
  cbn beta. tauto.
Qed.

Lemma immediate_one_frame (utc : Z) (st : state) (jid : Z) :
  let st' := immediate_one h send default_tz utc st jid in
  Forall2 same_definition (store st) (store st') /\
  IMMEDIATE_QUEUE st' = IMMEDIATE_QUEUE st /\
  INFLIGHT st' = INFLIGHT st.
Proof.
  unfold immediate_one.
  destruct (fetch_job_by_id (store st) jid) as [jobx|];
    [|cbn; split; [apply forall2_same_definition_refl|auto]].
  destruct (bool_decide (jid ∈ INFLIGHT st)) eqn:E;
    [cbn; split; [apply forall2_same_definition_refl|auto]|].
  apply bool_decide_eq_false in E.
  pose proof (execute_one_effects h send default_tz utc jobx true
                (with_inflight (INFLIGHT st ∪ {[jid]}) st)) as (Hq & Hi & _).
  pose proof (execute_one_same_definition utc jobx true
                (with_inflight (INFLIGHT st ∪ {[jid]}) st)) as Hs.
  destruct (_execute_one _ _ _ _ _ _ _) as [st1 raised].
  cbn [fst with_inflight store IMMEDIATE_QUEUE INFLIGHT] in *.
  assert (Hset : INFLIGHT st1 ∖ {[jid]} = INFLIGHT st).
  { rewrite Hi. apply set_eq. intros x.
    rewrite elem_of_difference, elem_of_union, elem_of_singleton.
    split; [tauto|]. intros Hx. split; [now left|]. congruence. }
  destruct raised; cbn [emit with_inflight store IMMEDIATE_QUEUE INFLIGHT]; auto.
Qed.

Lemma immediate_loop_frame (utc : Z) (ids : list Z) (st : state) :
  let st' := fold_left (immediate_one h send default_tz utc) ids st in
  Forall2 same_definition (store st) (store st') /\
  IMMEDIATE_QUEUE st' = IMMEDIATE_QUEUE st /\
  INFLIGHT st' = INFLIGHT st.
Proof.
  revert st. induction ids as [|jid ids IH]; intros st; cbn [fold_left].
  - split; [apply forall2_same_definition_refl|auto].
  - destruct (immediate_one_frame utc st jid) as (H1 & H2 & H3).
    destruct (IH (immediate_one h send default_tz utc st jid)) as (G1 & G2 & G3).
    split; [eapply forall2_same_definition_trans; eassumption|].
    split; congruence.
Qed.

Lemma scheduled_pass_frame (utc : Z) (jobs : list row) (st : state) :
  let st' := scheduled_pass h send default_tz utc jobs st in
  Forall2 same_definition (store st) (store st') /\
  IMMEDIATE_QUEUE st' = IMMEDIATE_QUEUE st /\
  INFLIGHT st' = INFLIGHT st.
Proof.
  revert st. induction jobs as [|job jobs IH]; intros st; cbn [scheduled_pass].
  - split; [apply forall2_same_definition_refl|auto].
  - pose proof (execute_one_effects h send default_tz utc job false st) as (Hq & Hi & _).
    pose proof (execute_one_same_definition utc job false st) as Hs.
    destruct (_execute_one _ _ _ _ _ _ _) as [st1 raised]. cbn [fst] in *.
    destruct raised as [e|].
    + cbn [emit store IMMEDIATE_QUEUE INFLIGHT]. auto.
    + destruct (IH st1) as (G1 & G2 & G3).
      split; [eapply forall2_same_definition_trans; eassumption|].
      split; congruence.
Qed.

End CycleFrame.

(** X12. One poll cycle keeps the table's rows and their definitions:
    no row is added or deleted and only [enabled], [next_run_at] and
    [last_run_at] may differ afterwards. It takes the first 50 ids off
    the immediate queue and leaves the others queued in order, and it
    leaves the in-flight set as it found it, also when a dispatch
    raised. *)
Theorem poll_cycle_frame
    (h : Host) (send : nat -> row -> send_result) (default_tz : string)
    (batch utc : Z) (st : state) :
  let st' := poll_cycle h send default_tz batch utc st in
  Forall2 same_definition (store st) (store st') /\
  IMMEDIATE_QUEUE st' = drop 50 (IMMEDIATE_QUEUE st) /\
  INFLIGHT st' = INFLIGHT st.
Proof.
  unfold poll_cycle, drain_immediate. cbv zeta.
  destruct (immediate_loop_frame h send default_tz utc (take 50 (IMMEDIATE_QUEUE st))
              (with_queue (drop 50 (IMMEDIATE_QUEUE st)) st)) as (H1 & H2 & H3).
  destruct (scheduled_pass_frame h send default_tz utc
              (fetch_due_jobs h utc (store st) batch)
              (fold_left (immediate_one h send default_tz utc)
                 (take 50 (IMMEDIATE_QUEUE st))
                 (with_queue (drop 50 (IMMEDIATE_QUEUE st)) st))) as (G1 & G2 & G3).
  cbn [with_queue store IMMEDIATE_QUEUE INFLIGHT] in *.
  split; [eapply forall2_same_definition_trans; eassumption|].
  split; congruence.
Qed.

(** ** A dispatch that finds a next instant *)

(** X13. When the resolver finds a next instant for the re-read row, a
    successful dispatch of a job that is not ONCE, and a failed
    dispatch with no retry configured, store that instant: every row of
    the id is enabled afterwards, whether it was before or not (so an
    immediate run of a paused job resumes it), and the row is not
    fetched as due again before the store's [NOW()] reaches the
    instant. *)
Theorem dispatch_with_next_reschedules
    (h : Host) (send : nat -> row -> send_result) (default_tz : string)
    (utc : Z) (job : row) (immediate : bool) (st : state) (nxt : Z) :
  compute_next_run_at h utc (reread st job) default_tz = Ok (Some nxt) ->
  (send_ok send st job = true /\ stype_of (reread st job) <> "ONCE") \/
  (send_ok send st job = false /\ default 0 (Job.max_retries job) <= 0) ->
  exists st',
    _execute_one h send default_tz utc job immediate st = (st', None) /\
    store st' = Store.update_where_id (Job.id job) (advance_row h utc nxt) (store st) /\
    (forall r, In r (store st') -> Job.id r = Job.id job ->
               Job.enabled r = true /\ Job.next_run_at r = Some nxt /\
               Job.last_run_at r = Some (mysql_now h utc)) /\
    forall utc' batch r,
      In r (fetch_due_jobs h utc' (store st') batch) -> Job.id r = Job.id job ->
      nxt <= mysql_now h utc'.
Proof.
  intros Hres Hcase.
  assert (Hrun : exists st',
            _execute_one h send default_tz utc job immediate st = (st', None) /\
            store st'
            = Store.update_where_id (Job.id job) (advance_row h utc nxt) (store st)).
  { unfold _execute_one, send_ok, reread in *.
    destruct (send (calls st) job) as [[ok code] detail]; cbn [fst] in Hcase.
    destruct Hcase as [[-> Hs]|[-> Hm]].
    - cbn [store emit]. rewrite Hres.
      apply String.eqb_neq in Hs. rewrite Hs.
      rewrite (bool_decide_eq_false_2 (Some nxt = None)) by discriminate.
      cbn [negb andb]. eexists; split; reflexivity.
    - unfold update_job_after_failure.
      assert ((0 <? default 0 (Job.max_retries job)) = false) as ->
        by (apply Z.ltb_ge; exact Hm).
      rewrite andb_false_r. cbn [store emit with_store]. rewrite Hres.
      rewrite (bool_decide_eq_false_2 (Some nxt = None)) by discriminate.
      eexists; split; reflexivity. }
  destruct Hrun as (st' & Hrun & Hstore). exists st'.
  split; [exact Hrun|]. split; [exact Hstore|].
  assert (Hrows : forall r, In r (store st') -> Job.id r = Job.id job ->
                    Job.enabled r = true /\ Job.next_run_at r = Some nxt /\
                    Job.last_run_at r = Some (mysql_now h utc)).
  { intros r Hin Hid. rewrite Hstore in Hin.
    apply update_where_id_In in Hin as (r0 & _ & ->).
    destruct (Job.id r0 =? Job.id job) eqn:E; [cbn; auto|].
    apply Z.eqb_neq in E. contradiction. }
  split; [exact Hrows|].
  intros utc' batch r Hin Hid. apply fetch_due_jobs_In in Hin as [Hin Hdue].
  destruct (Hrows r Hin Hid) as (_ & Hn & _).
  unfold Store.due in Hdue. rewrite Hn in Hdue.
  apply andb_true_iff in Hdue as [_ Hdue]. now apply Z.leb_le.
Qed.

Lemma dispatch_with_next_reschedules_witness :
  exists st',
    _execute_one Fixture.host_taipei Fixture.ok_send "Asia/Taipei" Fixture.noon
      Fixture.job42 true
      (Fixture.fresh_state [Store.set_enabled false Fixture.job42] []) = (st', None) /\
    forall r, In r (store st') -> Job.id r = 42 -> Job.enabled r = true.
Proof.
  destruct (dispatch_with_next_reschedules Fixture.host_taipei Fixture.ok_send
              "Asia/Taipei" Fixture.noon Fixture.job42 true
              (Fixture.fresh_state [Store.set_enabled false Fixture.job42] [])
              (Datetime.at_ 2030 1 1 20 0 0)
              ltac:(vm_compute; reflexivity)
              ltac:(left; split; [reflexivity|vm_compute; discriminate]))
    as (st' & Hrun & _ & Hrows & _).
  exists st'. split; [exact Hrun|]. intros r Hin Hid. now apply Hrows.
Defined.

(** ** The control handler *)



(** X15. The token only guards /run_immediate: on every other path,
    /health included, [do_GET] answers the same with any configured
    token and never touches the queue. *)
Theorem do_GET_token_only_guards_run_immediate
    (control_token other_token : string) (req : Control.request) (queue : list Z) :
  Control.path req <> "/run_immediate" ->
  Control.do_GET control_token req queue = Control.do_GET other_token req queue /\
  snd (Control.do_GET control_token req queue) = queue.
Proof.
  intros Hp. apply String.eqb_neq in Hp. unfold Control.do_GET. rewrite Hp. cbn [orb].
  destruct (String.eqb (Control.path req) "/health"); cbn [negb]; split; reflexivity.
Qed.

Lemma do_GET_token_only_guards_run_immediate_witness :
  Control.do_GET "s3cret" (Control.Request "/health" [] []) [7]
  = Control.do_GET "" (Control.Request "/health" [] []) [7] /\
  snd (Control.do_GET "s3cret" (Control.Request "/health" [] []) [7]) = [7].
Proof.
  apply (do_GET_token_only_guards_run_immediate "s3cret" ""
           (Control.Request "/health" [] []) [7]).
  discriminate.
Defined.

(** ** From an accepted request to the dispatch *)



(** ** Merging the defaults into a configuration *)

Section ConfigMerge.

Import Config.










End ConfigMerge.





(** ** The sender *)

Section SenderLemmas.

Lemma head_length (n : nat) (s : string) : (String.length (Sender.head n s) <= n)%nat.
Proof.
  revert s. induction n as [|n IH]; intros s; cbn [Sender.head String.length]; [lia|].
  destruct s as [|c s]; cbn [String.length]; [lia|]. specialize (IH s). lia.
Qed.

Lemma head_short (n : nat) (s : string) :
  (String.length s <= n)%nat -> Sender.head n s = s.
Proof.
  revert s. induction n as [|n IH]; intros s; cbn [Sender.head].
  - destruct s; cbn [String.length]; [reflexivity|lia].
  - destruct s as [|c s]; cbn [String.length]; [reflexivity|].
    intros H. rewrite IH by lia. reflexivity.
Qed.

End SenderLemmas.

(** X19. [Sender.send] reports success only for a real acknowledgement:
    on the HTTP channel a response whose status is in [200, 300), that
    status being the code and the first 500 characters of the body the
    detail; on the MQTT channel a publish whose return code is 0, made
    while connected or after a reconnect that did not raise. *)
Theorem send_success_means
    (t : Sender.transport) (verify_tls : bool) (job : row)
    (code : option Z) (detail : string) :
  Sender.send t verify_tls job = (true, code, detail) ->
  let m := Job.message job in
  let ch := PyStr.upper (PyStr.strip (PyStr.opt_or (Job.channel m) "")) in
  (ch = "HTTP" /\
   exists status text,
     let url := PyStr.strip (PyStr.opt_or (Job.http_url m) "") in
     url <> "" /\
     Sender.http_call t (Sender.build_request t verify_tls url m) = inl (status, text) /\
     200 <= status < 300 /\ code = Some status /\ detail = Sender.head 500 text)
  \/
  (ch = "MQTT" /\
   let topic := PyStr.strip (PyStr.opt_or (Job.mqtt_topic m) "") in
   topic <> "" /\
   Sender.mqtt_publish t topic (PyStr.opt_or (Job.payload m) "")
     (Sender.int_or (Job.qos m) 0) (default false (Job.retained m)) = inl 0 /\
   (Sender.mqtt_ready t = true \/ Sender.mqtt_connect t = None) /\
   code = Some 0 /\ detail = "published").
Proof.
  intros H m ch. unfold Sender.send in H. fold m ch in H.
  destruct (String.eqb ch "HTTP") eqn:Eh.
  - left. split; [now apply String.eqb_eq|].
    unfold Sender._send_http in H. fold m in H.
    destruct (negb (Sender.requests_available t)); [discriminate|].
    destruct (PyStr.strip (PyStr.opt_or (Job.http_url m) "")) as [|c url] eqn:Eu;
      cbn [PyStr.truthy negb] in H; [discriminate|].
    destruct (Sender.http_call t _) as [[status text]|e] eqn:Ec; [|discriminate].
    injection H as Hok <- <-.
    exists status, text. cbv zeta. split; [discriminate|]. split; [exact Ec|].
    apply andb_true_iff in Hok as [H1 H2]. apply Z.leb_le in H1. apply Z.ltb_lt in H2.
    split; [lia|]. split; reflexivity.
  - destruct (String.eqb ch "MQTT") eqn:Em; [|discriminate].
    right. split; [now apply String.eqb_eq|].
    unfold Sender._send_mqtt in H. fold m in H.
    destruct (negb (Sender.mqtt_available t)); [discriminate|].
    destruct (PyStr.strip (PyStr.opt_or (Job.mqtt_topic m) "")) as [|c topic] eqn:Et;
      cbn [PyStr.truthy negb] in H; [discriminate|].
    cbv zeta. split; [discriminate|].
    assert (Hpub : forall r : send_result,
              r = (true, code, detail) ->
              r = match Sender.mqtt_publish t (String c topic)
                          (PyStr.opt_or (Job.payload m) "")
                          (Sender.int_or (Job.qos m) 0) (default false (Job.retained m)) with
                  | inl rc => ((rc =? 0), Some (if rc =? 0 then 0 else rc), "published")
                  | inr e => (false, None, String.append "MQTT publish error: " e)
                  end ->
              Sender.mqtt_publish t (String c topic) (PyStr.opt_or (Job.payload m) "")
                (Sender.int_or (Job.qos m) 0) (default false (Job.retained m)) = inl 0
              /\ code = Some 0 /\ detail = "published").
    { intros r -> Hr.
      destruct (Sender.mqtt_publish t _ _ _ _) as [rc|e]; [|discriminate].
      injection Hr as Hrc -> ->. symmetry in Hrc. rewrite Hrc.
      apply Z.eqb_eq in Hrc. subst rc. auto. }
    destruct (Sender.mqtt_ready t) eqn:Er.
    + destruct (Hpub _ H eq_refl) as (H1 & H2 & H3). auto.
    + destruct (Sender.mqtt_connect t) as [e|] eqn:Econ; [discriminate|].
      destruct (Hpub _ H eq_refl) as (H1 & H2 & H3). auto.
Qed.

Lemma send_success_means_witness :
  Sender.http_call echo_transport
    (Sender.build_request echo_transport true "http://127.0.0.1:8000/echo"
       (Job.message Fixture.daily)) = inl (200, "ok").
Proof.
  destruct (send_success_means echo_transport true Fixture.daily (Some 200) "ok" eq_refl)
    as [(_ & status & text & _ & Hcall & _ & Hcode & _)|(Hch & _)].
  - injection Hcode as <-. reflexivity.
  - discriminate Hch.
Defined.

(** X20. [Sender.send] fails, with no code, before anything goes out
    when the channel is neither HTTP nor MQTT (trimmed, in any case),
    when the channel is HTTP and [http_url] is blank, and when the
    channel is MQTT and [mqtt_topic] is blank: the outcome is the same
    whatever the network would have answered. *)
Theorem send_fails_before_any_call
    (t t' : Sender.transport) (verify_tls : bool) (job : row) :
  let m := Job.message job in
  let ch := PyStr.upper (PyStr.strip (PyStr.opt_or (Job.channel m) "")) in
  (ch <> "HTTP" /\ ch <> "MQTT") \/
  (ch = "HTTP" /\ PyStr.strip (PyStr.opt_or (Job.http_url m) "") = "") \/
  (ch = "MQTT" /\ PyStr.strip (PyStr.opt_or (Job.mqtt_topic m) "") = "") ->
  Sender.requests_available t' = Sender.requests_available t ->
  Sender.mqtt_available t' = Sender.mqtt_available t ->
  (exists reason, Sender.send t verify_tls job = (false, None, reason)) /\
  Sender.send t' verify_tls job = Sender.send t verify_tls job.
Proof.
  intros m ch Hcase Hr Hm. unfold Sender.send. fold m ch.
  destruct Hcase as [[H1 H2]|[[H1 H2]|[H1 H2]]].
  - apply String.eqb_neq in H1, H2. rewrite H1, H2. split; [eexists|]; reflexivity.
  - rewrite H1. change (String.eqb "HTTP" "HTTP") with true. cbv iota.
    unfold Sender._send_http. fold m. rewrite Hr, H2. cbn [PyStr.truthy negb].
    destruct (negb (Sender.requests_available t)); split; try eexists; reflexivity.
  - rewrite H1. change (String.eqb "MQTT" "HTTP") with false.
    change (String.eqb "MQTT" "MQTT") with true. cbv iota.
    unfold Sender._send_mqtt. fold m. rewrite Hm, H2. cbn [PyStr.truthy negb].
    destruct (negb (Sender.mqtt_available t)); split; try eexists; reflexivity.
Qed.

Lemma send_fails_before_any_call_witness :
  (exists reason, Sender.send echo_transport true smtp_job = (false, None, reason)) /\
  Sender.send dead_transport true smtp_job = Sender.send echo_transport true smtp_job.
Proof.
  apply (send_fails_before_any_call echo_transport dead_transport true smtp_job).
  - left. split; discriminate.
  - reflexivity.
  - reflexivity.
Defined.

(** X21. On the HTTP channel a reported code is always the status of a
    response that was received: the send is then a success exactly
    when the status is in [200, 300), also for a status such as 500,
    and the detail is the body cut to its first 500 characters (the
    whole body when it is not longer). *)
Theorem http_code_is_response_status
    (t : Sender.transport) (verify_tls : bool) (job : row)
    (ok : bool) (status : Z) (detail : string) :
  let m := Job.message job in
  PyStr.upper (PyStr.strip (PyStr.opt_or (Job.channel m) "")) = "HTTP" ->
  Sender.send t verify_tls job = (ok, Some status, detail) ->
  exists text,
    Sender.http_call t
      (Sender.build_request t verify_tls
         (PyStr.strip (PyStr.opt_or (Job.http_url m) "")) m) = inl (status, text) /\
    (ok = true <-> 200 <= status < 300) /\
    detail = Sender.head 500 text /\
    (String.length detail <= 500)%nat /\
    ((String.length text <= 500)%nat -> detail = text).
Proof.
  intros m Hch H. unfold Sender.send in H. fold m in H. rewrite Hch in H.
  change (String.eqb "HTTP" "HTTP") with true in H. cbv iota in H.
  unfold Sender._send_http in H. fold m in H.
  destruct (negb (Sender.requests_available t)); [discriminate|].
  destruct (negb (PyStr.truthy _)); [discriminate|].
  destruct (Sender.http_call t _) as [[status' text]|e]; [|discriminate].
  apply pair_equal_spec in H as [H Hd]. apply pair_equal_spec in H as [Hok Hs].
  injection Hs as ->. subst ok detail.
  exists text. split; [reflexivity|]. split.
  - rewrite andb_true_iff, Z.leb_le, Z.ltb_lt. tauto.
  - split; [reflexivity|]. split; [apply head_length|apply head_short].
Qed.

Lemma http_code_is_response_status_witness :
  exists text,
    Sender.http_call echo_transport
      (Sender.build_request echo_transport true
         (PyStr.strip (PyStr.opt_or (Job.http_url (Job.message Fixture.daily)) ""))
         (Job.message Fixture.daily)) = inl (200, text) /\
    (true = true <-> 200 <= 200 < 300) /\
    "ok" = Sender.head 500 text /\
    (String.length "ok" <= 500)%nat /\
    ((String.length text <= 500)%nat -> "ok" = text).
Proof.
  apply (http_code_is_response_status echo_transport true Fixture.daily true 200 "ok").
  - reflexivity.
  - reflexivity.
Defined.

(** X22. On the MQTT channel a reported code is what the publish
    returned: 0 with success when the broker's return code is 0, the
    return code itself with failure otherwise, and the detail is
    "published" in both cases. When the client is not connected and the
    reconnect raises, nothing is published and no code is reported. *)
Theorem mqtt_code_is_publish_result
    (t : Sender.transport) (verify_tls : bool) (job : row) :
  let m := Job.message job in
  let topic := PyStr.strip (PyStr.opt_or (Job.mqtt_topic m) "") in
  PyStr.upper (PyStr.strip (PyStr.opt_or (Job.channel m) "")) = "MQTT" ->
  Sender.mqtt_available t = true ->
  topic <> "" ->
  (forall e, Sender.mqtt_ready t = false -> Sender.mqtt_connect t = Some e ->
     Sender.send t verify_tls job
     = (false, None, String.append "MQTT reconnect failed: " e)) /\
  (forall rc,
     Sender.mqtt_ready t = true \/ Sender.mqtt_connect t = None ->
     Sender.mqtt_publish t topic (PyStr.opt_or (Job.payload m) "")
       (Sender.int_or (Job.qos m) 0) (default false (Job.retained m)) = inl rc ->
     Sender.send t verify_tls job = ((rc =? 0), Some rc, "published")).
Proof.
  intros m topic Hch Ha Ht. unfold Sender.send. fold m. rewrite Hch.
  change (String.eqb "MQTT" "HTTP") with false.
  change (String.eqb "MQTT" "MQTT") with true. cbv iota.
  unfold Sender._send_mqtt. fold m topic. rewrite Ha.
  rewrite (truthy_nonempty topic Ht). cbn [negb]. split.
  - intros e -> ->. reflexivity.
  - intros rc Hready ->.
    assert ((if rc =? 0 then 0 else rc) = rc) as ->.
    { destruct (rc =? 0) eqn:E; [apply Z.eqb_eq in E; congruence|reflexivity]. }
    destruct (Sender.mqtt_ready t); [reflexivity|].
    destruct Hready as [Hd|Hd]; [discriminate Hd|rewrite Hd; reflexivity].
Qed.

Lemma mqtt_code_is_publish_result_witness :
  Sender.send dead_transport true mqtt_job
  = (false, None, "MQTT reconnect failed: connection refused") /\
  Sender.send echo_transport true mqtt_job = (true, Some 0, "published").
Proof.
  destruct (mqtt_code_is_publish_result dead_transport true mqtt_job
              eq_refl eq_refl ltac:(discriminate)) as [Hdead _].
  destruct (mqtt_code_is_publish_result echo_transport true mqtt_job
              eq_refl eq_refl ltac:(discriminate)) as [_ Hecho].
  split.
  - exact (Hdead "connection refused" eq_refl eq_refl).
  - exact (Hecho 0 (or_introl eq_refl) eq_refl).
Defined.

(** ** ONCE jobs whose time has come *)

Lemma once_past_resolves_to_none
    (h : Host) (utc : Z) (job : row) (default_tz : string) (times : list dtime) (run : Z) :
  stype_of job = "ONCE" ->
  _parse_times job = Ok times ->
  Job.run_at job = RunDatetime run ->
  run <= now_of h (_get_zoneinfo h (job_tz_name job default_tz)) utc ->
  compute_next_run_at h utc job default_tz = Ok None.
Proof.
  intros Hs Ht Hr Hpast. unfold compute_next_run_at.
  rewrite Ht, Hs, Hr. cbn [rbind].
  change (String.eqb "ONCE" "ONCE") with true. cbv iota.
  destruct (_get_zoneinfo h (job_tz_name job default_tz)) as [zj|].
  - apply Z.leb_le in Hpast. rewrite Hpast. reflexivity.
  - apply Z.ltb_ge in Hpast. rewrite Hpast. reflexivity.
Qed.

(** X23. A ONCE job fires once: when its [run_at] is not after now in
    the job's zone, one dispatch that succeeds, or that fails with no
    retry configured, disables the row ([enabled] false, [last_run_at]
    set, the other cells kept), and no later query for due rows returns
    it. *)
Theorem once_job_fires_once
    (h : Host) (send : nat -> row -> send_result) (default_tz : string)
    (utc : Z) (job : row) (immediate : bool) (st : state)
    (times : list dtime) (run : Z) :
  stype_of (reread st job) = "ONCE" ->
  _parse_times (reread st job) = Ok times ->
  Job.run_at (reread st job) = RunDatetime run ->
  run <= now_of h (_get_zoneinfo h (job_tz_name (reread st job) default_tz)) utc ->
  send_ok send st job = true \/ default 0 (Job.max_retries job) <= 0 ->
  exists st',
    _execute_one h send default_tz utc job immediate st = (st', None) /\
    store st' = Store.update_where_id (Job.id job) (pause_row h utc) (store st) /\
    forall utc' batch r,
      In r (fetch_due_jobs h utc' (store st') batch) -> Job.id r <> Job.id job.
Proof.
  intros Hs Ht Hr Hpast Hcase.
  pose proof (once_past_resolves_to_none h utc _ default_tz times run Hs Ht Hr Hpast)
    as Hnone.
  destruct (execute_one_without_next h send default_tz utc job immediate st Hnone Hcase)
    as (st' & Hrun & Hstore).
  exists st'. split; [exact Hrun|]. split; [exact Hstore|].
  intros utc' batch r Hin. rewrite Hstore in Hin.
  eapply paused_not_fetched; eassumption.
Qed.

Lemma once_job_fires_once_witness :
  exists st',
    _execute_one Fixture.host_taipei Fixture.fail_send "Asia/Taipei" Fixture.noon
      (Fixture.job_of 2 "ONCE" (RunDatetime (Datetime.at_ 2030 1 1 11 0 0)) None DaysNone
         None None)
      false
      (Fixture.fresh_state
         [Fixture.job_of 2 "ONCE" (RunDatetime (Datetime.at_ 2030 1 1 11 0 0)) None
            DaysNone None None] [])
    = (st', None) /\
    store st'
    = Store.update_where_id 2 (pause_row Fixture.host_taipei Fixture.noon)
        [Fixture.job_of 2 "ONCE" (RunDatetime (Datetime.at_ 2030 1 1 11 0 0)) None
           DaysNone None None] /\
    forall utc' batch r,
      In r (fetch_due_jobs Fixture.host_taipei utc' (store st') batch) -> Job.id r <> 2.
Proof.
  apply (once_job_fires_once Fixture.host_taipei Fixture.fail_send "Asia/Taipei"
           Fixture.noon
           (Fixture.job_of 2 "ONCE" (RunDatetime (Datetime.at_ 2030 1 1 11 0 0)) None
              DaysNone None None)
           false
           (Fixture.fresh_state
              [Fixture.job_of 2 "ONCE" (RunDatetime (Datetime.at_ 2030 1 1 11 0 0)) None
                 DaysNone None None] [])
           [] (Datetime.at_ 2030 1 1 11 0 0)).
  - reflexivity.
  - reflexivity.
  - reflexivity.
  - vm_compute. discriminate.
  - right. cbn. lia.
Defined.

(** ** An exception in the scheduled pass *)

(** X24. An exception of the resolver in the scheduled pass ends the
    cycle: when the immediate queue is empty and the first due job is
    sent successfully but the resolver raises for its re-read row, the
    cycle makes that one outbound call and no other, logs the error,
    and leaves the table as it was, so that the jobs behind it in the
    batch are not sent in this cycle. *)
Theorem raising_dispatch_ends_the_cycle
    (h : Host) (send : nat -> row -> send_result) (default_tz : string)
    (batch utc : Z) (st : state) (job : row) (rest : list row) (e : exn) :
  IMMEDIATE_QUEUE st = [] ->
  fetch_due_jobs h utc (store st) batch = job :: rest ->
  send_ok send st job = true ->
  compute_next_run_at h utc (reread st job) default_tz = Raise e ->
  let st' := poll_cycle h send default_tz batch utc st in
  store st' = store st /\
  trace st'
  = (trace st ++ [Sent false (Job.id job); Success (Job.id job); SchedulerError e])%list /\
  sends (trace st') = (sends (trace st) ++ [(false, Job.id job)])%list.
Proof.
  intros Hq Hjobs Hok Hres st'. subst st'.
  unfold poll_cycle, drain_immediate. rewrite Hq, Hjobs.
  cbn [take drop fold_left scheduled_pass].
  unfold _execute_one, send_ok, reread in *.
  cbn [with_queue store trace IMMEDIATE_QUEUE INFLIGHT calls] in *.
  change (calls (with_queue [] st)) with (calls st).
  destruct (send (calls st) job) as [[ok code] detail]; cbn [fst] in Hok. subst ok.
  cbn [store emit with_queue]. rewrite Hres.
  cbn [emit store trace with_queue].
  split; [reflexivity|]. split; [rewrite <- !app_assoc; reflexivity|].
  rewrite !sends_app. cbn. now rewrite !app_nil_r.
Qed.

Lemma raising_dispatch_ends_the_cycle_witness :
  trace
    (poll_cycle Fixture.host_taipei Fixture.ok_send "Asia/Taipei" 20 Fixture.noon
       (Fixture.fresh_state [Fixture.daily_bad_times; Fixture.job42] []))
  = [Sent false 4; Success 4; SchedulerError ValueError].
Proof.
  apply (raising_dispatch_ends_the_cycle Fixture.host_taipei Fixture.ok_send "Asia/Taipei"
           20 Fixture.noon
           (Fixture.fresh_state [Fixture.daily_bad_times; Fixture.job42] [])
           Fixture.daily_bad_times [Fixture.job42] ValueError).
  - reflexivity.
  - vm_compute. reflexivity.
  - reflexivity.
  - vm_compute. reflexivity.
Defined.
